(** * MJHMC: energy functions evaluated through a TensorFlow graph

    A shallow embedding of [mjhmc/misc/tf_distributions.py]: the base class
    [TensorflowDistribution] and its three subclasses [Funnel], [TFGaussian]
    and [SparseImageCode].

    Modelling decisions.
    - A tensor (TensorFlow value or numpy array) is a shape together with
      its row-major buffer, as both libraries store it.  Broadcasting,
      reductions, indexing, reshaping, tiling and batched matrix products are
      written out on that representation.
    - Numbers computed inside the graph are real numbers: float32 rounding,
      overflow and NaN are outside the model.  Python floats held by the
      objects ([scale], [sigma], [lmbda], array entries) are binary64 values
      ([PrimFloat.float]) and enter the graph through [F2R].
    - [tf.gradients(energy_op, state_pl)] is the tensor of the partial
      derivatives of the summed energy with respect to every entry of the
      placeholder; it is computed here by running the same graph over dual
      numbers (value, tangent), once per entry.
    - Python exceptions are the [Raise] results of an error monad.
    - The interpreter's [hash] is CPython 2.7's on a 64-bit build without
      hash randomisation (the module hashes [ndarray.data], which only
      Python 2 buffers support).
    - Random draws, the clock, the home directory and the file system are
      fields of an explicit [world] that is threaded through the calls. *)

From Stdlib Require Import ZArith List Reals Lra Lia Bool.
From Stdlib Require Import Floats.PrimFloat Floats.SpecFloat Floats.FloatOps.
From stdpp Require Import base list gmap strings.
Import ListNotations.

(** ** Exceptions *)

Inductive exn : Type :=
| AssertionError
| AttributeError
| IndexError
| IOError
| InvalidArgumentError
| NotImplementedError
| TypeError
| ValueError.

Inductive result (A : Type) : Type :=
| Ok (a : A)
| Raise (e : exn).
Arguments Ok {A} a.
Arguments Raise {A} e.

#[export] Instance result_ret : MRet result := λ A a, Ok a.
#[export] Instance result_bind : MBind result := λ A B f m,
  match m with Ok a => f a | Raise e => Raise e end.
#[export] Instance result_fmap : FMap result := λ A B f m,
  match m with Ok a => Ok (f a) | Raise e => Raise e end.

Definition of_option {A : Type} (e : exn) (o : option A) : result A :=
  match o with Some a => Ok a | None => Raise e end.

(** ** Scalars

    The graph is built once and run on two kinds of numbers: reals (the
    forward pass) and dual numbers (the derivative).  [sc_pow] is the power
    with a literal natural exponent, as in [state_pl ** 2]. *)

Class Scalar (A : Type) : Type := {
  sc_const : R → A;
  sc_add : A → A → A;
  sc_sub : A → A → A;
  sc_mul : A → A → A;
  sc_div : A → A → A;
  sc_neg : A → A;
  sc_exp : A → A;
  sc_log : A → A;
  sc_abs : A → A;
  sc_pow : A → nat → A
}.

#[export] Instance R_scalar : Scalar R := {
  sc_const := λ c, c;
  sc_add := Rplus;
  sc_sub := Rminus;
  sc_mul := Rmult;
  sc_div := Rdiv;
  sc_neg := Ropp;
  sc_exp := exp;
  sc_log := ln;
  sc_abs := Rabs;
  sc_pow := pow
}.

Record dual : Type := Dual { val : R; tan : R }.

(** The sign used by the gradient of [tf.abs]. *)
Definition Rsign (x : R) : R :=
  if Rlt_dec 0 x then 1%R else if Rlt_dec x 0 then (-1)%R else 0%R.

#[export] Instance dual_scalar : Scalar dual := {
  sc_const := λ c, Dual c 0;
  sc_add := λ a b, Dual (val a + val b) (tan a + tan b);
  sc_sub := λ a b, Dual (val a - val b) (tan a - tan b);
  sc_mul := λ a b, Dual (val a * val b) (tan a * val b + val a * tan b);
  sc_div := λ a b,
    Dual (val a / val b) (tan a / val b - val a * tan b / (val b * val b));
  sc_neg := λ a, Dual (- val a) (- tan a);
  sc_exp := λ a, Dual (exp (val a)) (exp (val a) * tan a);
  sc_log := λ a, Dual (ln (val a)) (tan a / val a);
  sc_abs := λ a, Dual (Rabs (val a)) (Rsign (val a) * tan a);
  sc_pow := λ a n, Dual (val a ^ n) (INR n * val a ^ (n - 1) * tan a)
}.

(** ** Tensors: a shape and a row-major buffer *)

Record tensor (A : Type) : Type := Tensor { shape : list nat; data : list A }.
Arguments Tensor {A} shape data.
Arguments shape {A} t.
Arguments data {A} t.

Definition numel (s : list nat) : nat := foldr Nat.mul 1 s.

Definition wf {A : Type} (t : tensor A) : Prop :=
  length (data t) = numel (shape t).

(** Python indices: an integer or a slice [lo:hi]; negative values count
    from the end and slice bounds are clamped. *)
Inductive index : Type :=
| Idx (i : Z)
| Slc (lo hi : option Z).

Definition norm_index (n : nat) (i : Z) : Z :=
  if (i <? 0)%Z then (i + Z.of_nat n)%Z else i.

Definition norm_bound (n : nat) (dflt : nat) (b : option Z) : nat :=
  match b with
  | None => dflt
  | Some z => Z.to_nat (Z.min (Z.of_nat n) (Z.max 0 (norm_index n z)))
  end.

Definition axis_of (rank : nat) (axis : Z) : option nat :=
  let a := norm_index rank axis in
  if ((0 <=? a) && (a <? Z.of_nat rank))%Z then Some (Z.to_nat a) else None.

Definition split_axis (axis : nat) (s : list nat)
  : option (list nat * nat * list nat) :=
  match drop axis s with
  | n :: post => Some (take axis s, n, post)
  | [] => None
  end.


Section structural.
Context {A : Type}.

(** [n] consecutive blocks of [k] entries. *)
Fixpoint chunks (n k : nat) (d : list A) : list (list A) :=
  match n with
  | O => []
  | S n' => take k d :: chunks n' k (drop k d)
  end.

Fixpoint getitem_shape (ix : list index) (s : list nat)
  : result (list nat) :=
  match ix, s with
  | [], _ => Ok s
  | _ :: _, [] => Raise IndexError
  | Idx i :: ix', n :: s' =>
      let i' := norm_index n i in
      if ((0 <=? i') && (i' <? Z.of_nat n))%Z
      then getitem_shape ix' s' else Raise IndexError
  | Slc lo hi :: ix', n :: s' =>
      let l := norm_bound n 0 lo in
      let h := norm_bound n n hi in
      cons (h - l) <$> getitem_shape ix' s'
  end.

Fixpoint getitem_data (ix : list index) (s : list nat) (d : list A)
  : list A :=
  match ix, s with
  | Idx i :: ix', n :: s' =>
      let k := numel s' in
      getitem_data ix' s' (take k (drop (Z.to_nat (norm_index n i) * k) d))
  | Slc lo hi :: ix', n :: s' =>
      let l := norm_bound n 0 lo in
      let h := norm_bound n n hi in
      let k := numel s' in
      concat (getitem_data ix' s' <$> chunks (h - l) k (drop (l * k) d))
  | _, _ => d
  end.

(** [t[ix]]: basic indexing of numpy arrays and of TensorFlow tensors. *)
Definition getitem (t : tensor A) (ix : list index) : result (tensor A) :=
  s ← getitem_shape ix (shape t);
  Ok (Tensor s (getitem_data ix (shape t) (data t))).

(** [reshape]: the buffer is kept, one dimension may be [-1]. *)
Definition known_dims (target : list Z) : list Z :=
  filter (λ z, z ≠ (-1)%Z) target.

Definition reshape (t : tensor A) (target : list Z) : result (tensor A) :=
  let known := known_dims target in
  let total := numel (shape t) in
  let prod := Z.to_nat (foldr Z.mul 1%Z known) in
  if decide (Forall (λ z, (0 ≤ z)%Z) known) then
    match length target - length known with
    | 0 =>
        if decide (prod = total)
        then Ok (Tensor (Z.to_nat <$> target) (data t))
        else Raise ValueError
    | 1 =>
        if decide (0 < prod ∧ total `mod` prod = 0)
        then Ok (Tensor ((λ z, if decide (z = (-1)%Z) then total / prod
                               else Z.to_nat z) <$> target) (data t))
        else Raise ValueError
    | _ => Raise ValueError
    end
  else Raise ValueError.

(** [np.tile(a, reps)] with one repetition count per axis. *)
Fixpoint tile_data (s reps : list nat) (d : list A) : list A :=
  match s, reps with
  | n :: s', r :: reps' =>
      concat (replicate r
                (concat (tile_data s' reps' <$> chunks n (numel s') d)))
  | _, _ => d
  end.

Definition tile (t : tensor A) (reps : list nat) : result (tensor A) :=
  if decide (length reps = length (shape t))
  then Ok (Tensor (zip_with Nat.mul (shape t) reps)
                  (tile_data (shape t) reps (data t)))
  else Raise ValueError.

(** The [c] columns of a list of rows. *)
Fixpoint columns (c : nat) (rows : list (list A)) : list (list A) :=
  match c with
  | O => []
  | S c' => (rows ≫= take 1) :: columns c' (drop 1 <$> rows)
  end.

(** [a.T] of a two-dimensional array. *)
Definition transpose (t : tensor A) : result (tensor A) :=
  match shape t with
  | [r; c] => Ok (Tensor [c; r] (concat (columns c (chunks r c (data t)))))
  | _ => Raise ValueError
  end.

(** Broadcasting (numpy rules): shapes are aligned on the right, a
    dimension of size one is repeated. *)
Definition bdim (a b : nat) : option nat :=
  if a =? b then Some a
  else if a =? 1 then Some b
  else if b =? 1 then Some a
  else None.

Fixpoint bzip (s1 s2 : list nat) : option (list nat) :=
  match s1, s2 with
  | [], [] => Some []
  | a :: s1', b :: s2' => d ← bdim a b; s ← bzip s1' s2'; Some (d :: s)
  | _, _ => None
  end.

Definition pad (r : nat) (s : list nat) : list nat :=
  replicate (r - length s) 1 ++ s.

Definition bshape (s1 s2 : list nat) : option (list nat) :=
  let r := length s1 `max` length s2 in
  bzip (pad r s1) (pad r s2).

Fixpoint bcast_to (s t : list nat) (d : list A) : list A :=
  match s, t with
  | n :: s', m :: t' =>
      if n =? m
      then concat (bcast_to s' t' <$> chunks n (numel s') d)
      else concat (replicate m (bcast_to s' t' d))
  | _, _ => d
  end.

Definition binop (f : A → A → A) (t1 t2 : tensor A) : result (tensor A) :=
  match bshape (shape t1) (shape t2) with
  | Some s =>
      let r := length s in
      Ok (Tensor s (zip_with f (bcast_to (pad r (shape t1)) s (data t1))
                               (bcast_to (pad r (shape t2)) s (data t2))))
  | None => Raise ValueError
  end.

Definition tmap (f : A → A) (t : tensor A) : tensor A :=
  Tensor (shape t) (f <$> data t).
End structural.

Section arithmetic.
Context {A : Type} `{!Scalar A}.

Definition scalar (c : R) : tensor A := Tensor [] [sc_const c].

Definition tf_neg (t : tensor A) : tensor A := tmap sc_neg t.
Definition tf_exp (t : tensor A) : tensor A := tmap sc_exp t.
Definition tf_log (t : tensor A) : tensor A := tmap sc_log t.
Definition tf_abs (t : tensor A) : tensor A := tmap sc_abs t.
Definition tf_pow (t : tensor A) (n : nat) : tensor A :=
  tmap (λ x, sc_pow x n) t.
Definition tf_add : tensor A → tensor A → result (tensor A) := binop sc_add.
Definition tf_sub : tensor A → tensor A → result (tensor A) := binop sc_sub.
Definition tf_mul : tensor A → tensor A → result (tensor A) := binop sc_mul.
Definition tf_div : tensor A → tensor A → result (tensor A) := binop sc_div.

(** Sum of [rows], each of length [k], entry by entry. *)
Definition sum_rows (k : nat) (rows : list (list A)) : list A :=
  foldl (zip_with sc_add) (replicate k (sc_const 0)) rows.

Definition reduce_with (post : nat → list A → list A)
    (t : tensor A) (axis : Z) : result (tensor A) :=
  match axis_of (length (shape t)) axis ≫= λ a, split_axis a (shape t) with
  | Some (pre, n, tl) =>
      let k := numel tl in
      Ok (Tensor (pre ++ tl)
            (concat ((λ c, post n (sum_rows k (chunks n k c)))
                       <$> chunks (numel pre) (n * k) (data t))))
  | None => Raise ValueError
  end.

Definition reduce_sum : tensor A → Z → result (tensor A) :=
  reduce_with (λ _ l, l).

Definition reduce_mean : tensor A → Z → result (tensor A) :=
  reduce_with (λ n l, (λ x, sc_div x (sc_const (INR n))) <$> l).

Definition dot (u v : list A) : A :=
  foldr sc_add (sc_const 0) (zip_with sc_mul u v).

(** Product of an [m]x[k] by a [k]x[n] matrix, both row-major. *)
Definition matmul (m k n : nat) (x y : list A) : list A :=
  r ← chunks m k x; c ← columns n (chunks k n y); [dot r c].

Definition split_last2 (s : list nat) : option (list nat * nat * nat) :=
  match drop (length s - 2) s with
  | [m; n] => Some (take (length s - 2) s, m, n)
  | _ => None
  end.

(** [tf.batch_matmul]: the leading dimensions must agree exactly. *)
Definition batch_matmul (x y : tensor A) : result (tensor A) :=
  match split_last2 (shape x), split_last2 (shape y) with
  | Some (bx, m, k), Some (by', k', n) =>
      if decide (bx = by' ∧ k = k')
      then Ok (Tensor (bx ++ [m; n])
                 (concat (zip_with (matmul m k n)
                            (chunks (numel bx) (m * k) (data x))
                            (chunks (numel bx) (k * n) (data y)))))
      else Raise InvalidArgumentError
  | _, _ => Raise ValueError
  end.
End arithmetic.

(** ** Python floats *)

Definition pow2R (e : Z) : R :=
  if (0 <=? e)%Z then IZR (2 ^ e) else (/ IZR (2 ^ (- e)))%R.

(** The real number a finite binary64 value stands for. *)
Definition F2R (x : float) : R :=
  match Prim2SF x with
  | S754_finite s m e => (IZR (if s then Z.neg m else Z.pos m) * pow2R e)%R
  | _ => 0%R
  end.

(** The IEEE-754 bit pattern of a binary64 value and its eight bytes in
    memory (little endian), which is what a read-only buffer exposes. *)
Definition float_bits (x : float) : Z :=
  let sign (s : bool) := if s then (2 ^ 63)%Z else 0%Z in
  match Prim2SF x with
  | S754_zero s => sign s
  | S754_infinity s => (sign s + Z.shiftl 2047 52)%Z
  | S754_nan => Z.shiftl 4095 51
  | S754_finite s m e =>
      (sign s + if Z.pos m <? 2 ^ 52 then Z.pos m
                else Z.shiftl (e + 1075) 52 + (Z.pos m - 2 ^ 52))%Z
  end.

Definition float_bytes (x : float) : list Z :=
  (λ i, (Z.shiftr (float_bits x) (8 * Z.of_nat i) mod 256)%Z) <$> seq 0 8.

(** ** The interpreter's [hash] (CPython 2.7, 64-bit [long]) *)

Module PyHash.
Local Open Scope Z_scope.

(** A C [long]: 64 bits, two's complement. *)
Definition wrap (z : Z) : Z := (z + 2 ^ 63) mod 2 ^ 64 - 2 ^ 63.

Definition fix_m1 (x : Z) : Z := if x =? -1 then -2 else x.

(** The 30-bit digits of a non-negative [long], most significant first. *)
Definition digits30 (n : Z) : list Z :=
  (λ i, Z.shiftr n (30 * Z.of_nat i) mod 2 ^ 30)
    <$> reverse (seq 0 (Z.to_nat (Z.log2 n / 30 + 1))).

(** [long_hash]: rotate by one digit, add with end-around carry. *)
Definition long_hash (n : Z) : Z :=
  let step (x d : Z) :=
    let r := Z.lor (Z.shiftl x 30 mod 2 ^ 64) (Z.shiftr x 34) in
    let s := r + d in
    if 2 ^ 64 <=? s then s - 2 ^ 64 + 1 else s in
  let x := foldl step 0 (if n =? 0 then [] else digits30 (Z.abs n)) in
  fix_m1 (wrap (x * Z.sgn n)).

(** [int_hash] for values that fit a C [long], [long_hash] beyond. *)
Definition hash_int (n : Z) : Z :=
  if (- 2 ^ 63 <=? n) && (n <? 2 ^ 63) then fix_m1 n else long_hash n.

(** [_Py_HashDouble]. *)
Definition hash_float (x : float) : Z :=
  match Prim2SF x with
  | S754_zero _ => 0
  | S754_infinity s => if s then -271828 else 314159
  | S754_nan => 0
  | S754_finite s m e =>
      let sg := if s then -1 else 1 in
      let m := Z.pos m in
      if (0 <=? e) || (m mod 2 ^ (- e) =? 0) then
        (* fractpart == 0.0 *)
        let intpart := if 0 <=? e then m * 2 ^ e else m / 2 ^ (- e) in
        if 2 ^ 62 <? intpart then long_hash (sg * intpart)
        else fix_m1 (sg * intpart)
      else
        let len := Z.log2 m + 1 in
        let expo := e + len in
        let hipart := (m * 2 ^ 31) / 2 ^ len in
        let rest := (m * 2 ^ 31) mod 2 ^ len in
        let lopart := (rest * 2 ^ 31) / 2 ^ len in
        fix_m1 (wrap (sg * hipart + sg * lopart + expo * 2 ^ 15))
  end.

(** [tuplehash], on the hashes of the items. *)
Fixpoint tuple_loop (x mult : Z) (hs : list Z) : Z :=
  match hs with
  | [] => x
  | y :: hs' =>
      let len := Z.of_nat (length hs') in
      tuple_loop (wrap (Z.lxor x y * mult))
                 (wrap (mult + (82520 + len + len))) hs'
  end.

Definition hash_tuple (hs : list Z) : Z :=
  fix_m1 (wrap (tuple_loop 3430008 1000003 hs + 97531)).

(** [buffer_hash], on the bytes of a read-only buffer. *)
Definition hash_bytes (bs : list Z) : Z :=
  match bs with
  | [] => 0
  | b :: _ =>
      let x := foldl (λ x c, wrap (Z.lxor (1000003 * x) c))
                     (Z.shiftl b 7) bs in
      fix_m1 (Z.lxor x (Z.of_nat (length bs)))
  end.
End PyHash.

(** ** Python numbers *)

Inductive pynum : Type :=
| PyInt (n : Z)
| PyFloat (x : float).

Definition float_of_Z (n : Z) : float :=
  SF2Prim (binary_normalize 53 1024 n 0 false).

(** [float(v)]. *)
Definition py_float (v : pynum) : float :=
  match v with
  | PyInt n => float_of_Z n
  | PyFloat x => x
  end.

(** The real number a Python number stands for inside the graph. *)
Definition num_R (v : pynum) : R :=
  match v with
  | PyInt n => IZR n
  | PyFloat x => F2R x
  end.

(** [hash(v)] of a number. *)
Definition hash_num (v : pynum) : Z :=
  match v with
  | PyInt n => PyHash.hash_int n
  | PyFloat x => PyHash.hash_float x
  end.

(** ** numpy arrays of binary64 entries *)

Record ndarray : Type := NdArray { nd_tensor : tensor float; writeable : bool }.

Definition buffer_bytes (a : ndarray) : list Z :=
  data (nd_tensor a) ≫= float_bytes.

(** [a.flags.writeable = b]. *)
Definition set_writeable (b : bool) (a : ndarray) : ndarray :=
  NdArray (nd_tensor a) b.

(** [a.flat[i] = v]: numpy refuses to write into a read-only array. *)
Definition setitem (a : ndarray) (i : nat) (v : float) : result ndarray :=
  if writeable a then
    if decide (i < length (data (nd_tensor a)))
    then Ok (NdArray (Tensor (shape (nd_tensor a))
                             (<[i := v]> (data (nd_tensor a)))) true)
    else Raise IndexError
  else Raise ValueError.

(** [hash(a.data)]: a writable buffer is not hashable. *)
Definition hash_buffer (a : ndarray) : result Z :=
  if writeable a then Raise TypeError
  else Ok (PyHash.hash_bytes (buffer_bytes a)).

(** An array handed to TensorFlow ([tf.constant], [tf.to_float]). *)
Definition to_tf {A : Type} `{!Scalar A} (a : tensor float) : tensor A :=
  Tensor (shape a) ((λ x, sc_const (F2R x)) <$> data a).

(** ** The world outside the interpreter *)

Record world : Type := World {
  normals : nat → R;
    (** the standard-normal draws [np.random] will return next *)
  timestamp : string;
    (** the text of [time.time()] at the call *)
  home : string;
    (** what [expanduser] puts in place of the tilde *)
  can_open : string → bool;
    (** whether [open(path, 'w')] succeeds *)
  files : gmap string string;
  chrome_trace : string;
    (** the timeline an instrumented run reports *)
  dumps : gmap Z (tensor float * tensor float)
    (** [distr_data/dump_<n_basis>.pkl]: its ['data'] and ['basis'] *)
}.

Definition set_normals (f : nat → R) (w : world) : world :=
  World f (timestamp w) (home w) (can_open w) (files w) (chrome_trace w)
        (dumps w).

Definition set_files (fs : gmap string string) (w : world) : world :=
  World (normals w) (timestamp w) (home w) (can_open w) fs (chrome_trace w)
        (dumps w).

(** [n] draws from the generator. *)
Definition draw (n : nat) (w : world) : list R * world :=
  (normals w <$> seq 0 n, set_normals (λ i, normals w (n + i)) w).

(** [with open(path, 'w') as f: f.write(content)]. *)
Definition write_file (path content : string) (w : world)
  : result unit * world :=
  if can_open w path
  then (Ok (), set_files (<[path := content]> (files w)) w)
  else (Raise IOError, w).

(** ** TensorflowDistribution *)

(** A node of the graph, as a function of the value fed to [state_pl]. *)
Definition graph : Type := ∀ A : Type, Scalar A → tensor A → result (tensor A).

(** The [device] argument: a string, a dict, or anything else. *)
Inductive device_spec : Type :=
| DevStr (d : string)
| DevDict (m : gmap string string)
| DevOther.

(** The keyword arguments that reach the values computed.  The session and
    its configuration ([sess], [gpu_frac], [allow_growth], [log_placement])
    only place and schedule the computation. *)
Record kwargs : Type := Kwargs { kw_device : device_spec; kw_prof_run : bool }.

Record TensorflowDistribution : Type := {
  ndims : Z;
  nbatch : Z;
  grad_device : string;
  energy_device : string;
  device : string;
  prof_run : bool;
  energy_op : graph;
  grad_op : tensor R → result (tensor R);
  name : string;
  backend : string
}.

(** The input with tangent one at position [p] and zero elsewhere. *)
Definition seed (p : nat) (X : tensor R) : tensor dual :=
  Tensor (shape X)
         (imap (λ q x, Dual x (if decide (q = p) then 1 else 0)) (data X)).

(** [tf.gradients(ys, xs)[0]]: the derivative of the sum of [ys]. *)
Definition gradients (ys : graph) (X : tensor R) : result (tensor R) :=
  g ← mapM (λ p, y ← ys dual _ (seed p X);
                 Ok (foldr Rplus 0%R (tan <$> data y)))
           (seq 0 (length (data X)));
  Ok (Tensor (shape X) g).

(** Lines 58-68 of [__init__]. *)
Definition resolve_device (dev : device_spec) : result (string * string) :=
  match dev with
  | DevDict m =>
      match m !! "grad" with
      | None => Raise AssertionError
      | Some g =>
          match m !! "energy" with
          | None => Raise AssertionError
          | Some e => Ok (g, e)
          end
      end
  | DevStr d => Ok (d, d)
  | DevOther => Raise AttributeError
  end.

(** [build_graph]: the placeholder has shape [[ndims, None]]. *)
Definition build_graph (ndims : Z) (build_energy_op : result graph)
  : result (graph * (tensor R → result (tensor R))) :=
  if (ndims <? 0)%Z then Raise ValueError
  else e ← build_energy_op; Ok (e, gradients e).

Definition TensorflowDistribution_init (ndims nbatch : Z)
    (build_energy_op : result graph) (name : string) (kw : kwargs)
  : result TensorflowDistribution :=
  '(g, e) ← resolve_device (kw_device kw);
  '(energy, grad) ← build_graph ndims build_energy_op;
  Ok {| ndims := ndims; nbatch := nbatch;
        grad_device := g; energy_device := e; device := e;
        prof_run := kw_prof_run kw;
        energy_op := energy; grad_op := grad;
        name := name; backend := "tensorflow" |}.

(** [sess.run(op, feed_dict={state_pl: X})]: the value fed must fit the
    placeholder. *)
Definition sess_run (self : TensorflowDistribution)
    (op : tensor R → result (tensor R)) (X : tensor R) : result (tensor R) :=
  match shape X with
  | [n; _] => if (Z.of_nat n =? ndims self)%Z then op X else Raise ValueError
  | _ => Raise ValueError
  end.

Definition log_path (self : TensorflowDistribution) (kind : string)
    (w : world) : string :=
  home w +:+ "/tmp/logs/tf_" +:+ name self +:+ "_" +:+ kind
         +:+ "_timeline_" +:+ timestamp w +:+ ".json".

Definition E_val (self : TensorflowDistribution) (X : tensor R) (w : world)
  : result (tensor R) * world :=
  if prof_run self then
    match sess_run self (energy_op self R _) X with
    | Ok energy =>
        match write_file (log_path self "energy" w) (chrome_trace w) w with
        | (Ok _, w') => (Ok energy, w')
        | (Raise e, w') => (Raise e, w')
        end
    | Raise e => (Raise e, w)
    end
  else (sess_run self (energy_op self R _) X, w).

Definition dEdX_val (self : TensorflowDistribution) (X : tensor R)
    (w : world) : result (tensor R) * world :=
  if prof_run self then
    match sess_run self (grad_op self) X with
    | Ok grad =>
        match write_file (log_path self "grad" w) (chrome_trace w) w with
        | (Ok _, w') => (Ok grad, w')
        | (Raise e, w') => (Raise e, w')
        end
    | Raise e => (Raise e, w)
    end
  else (sess_run self (grad_op self) X, w).

(** [build_energy_op] of the base class itself. *)
Definition TensorflowDistribution_build_energy_op : result graph :=
  Raise NotImplementedError.

(** The same object with another value of [prof_run]. *)
Definition with_prof_run (b : bool) (self : TensorflowDistribution)
  : TensorflowDistribution :=
  {| ndims := ndims self; nbatch := nbatch self;
     grad_device := grad_device self; energy_device := energy_device self;
     device := device self; prof_run := b;
     energy_op := energy_op self; grad_op := grad_op self;
     name := name self; backend := backend self |}.

(** The mapping [{'grad': d, 'energy': d}]. *)
Definition uniform_dict (d : string) : device_spec :=
  DevDict (<["grad" := d]> {["energy" := d]}).

(** ** Funnel *)

Record Funnel : Type := {
  f_base : TensorflowDistribution;
  scale : float;
  f_Xinit : tensor R
}.

Definition Funnel_build_energy_op (scale : float) : graph := λ A _ state_pl,
  x0 ← getitem state_pl [Idx 0; Slc None None];
  q0 ← tf_div (tf_pow x0 2) (scalar (F2R scale ^ 2));
  let e_x_0 := tf_neg q0 in
  xk ← getitem state_pl [Slc (Some 1%Z) None; Slc None None];
  qk ← tf_div (tf_pow xk 2) (tf_exp x0);
  let e_x_k := tf_neg qk in
  s ← tf_add e_x_0 e_x_k;
  reduce_sum s 0.

(** [np.random.normal(scale=..., size=...)] refuses a negative size and a
    negative scale. *)
Definition Funnel_gen_init_X (scale : float) (ndims nbatch : Z) (w : world)
  : result (tensor R) * world :=
  if (nbatch <? 0)%Z || PrimFloat.ltb scale 0 then (Raise ValueError, w)
  else
    let b := Z.to_nat nbatch in
    let '(z0, w1) := draw b w in
    let x_0 := (λ z, F2R scale * z)%R <$> z0 in
    if (ndims - 1 <? 0)%Z then (Raise ValueError, w1)
    else
      let k := Z.to_nat (ndims - 1) in
      let '(zk, w2) := draw (k * b) w1 in
      let x_k := zip_with Rmult (bcast_to [1; b] [k; b] (exp <$> x_0)) zk in
      (Ok (Tensor [S k; b] (x_0 ++ x_k)), w2).

Definition Funnel_init (scale : pynum) (nbatch ndims : Z) (kw : kwargs)
    (w : world) : result Funnel * world :=
  let scale := py_float scale in
  match Funnel_gen_init_X scale ndims nbatch w with
  | (Ok Xinit, w') =>
      (base ← TensorflowDistribution_init ndims nbatch
                (Ok (Funnel_build_energy_op scale)) "Funnel" kw;
       Ok {| f_base := base; scale := scale; f_Xinit := Xinit |}, w')
  | (Raise e, w') => (Raise e, w')
  end.

Definition Funnel_hash (self : Funnel) : Z :=
  PyHash.hash_tuple [PyHash.hash_float (scale self);
                     PyHash.hash_int (ndims (f_base self))].

(** ** TFGaussian *)

Record TFGaussian : Type := {
  g_base : TensorflowDistribution;
  sigma : pynum;
  g_Xinit : tensor R
}.

Definition TFGaussian_build_energy_op (sigma : pynum) : graph :=
  λ A _ state_pl,
  s ← reduce_sum (tf_pow state_pl 2) 0;
  tf_div s (scalar (2 * num_R sigma ^ 2)).

(** [np.random.randn(ndims, nbatch)]. *)
Definition TFGaussian_gen_init_X (ndims nbatch : Z) (w : world)
  : result (tensor R) * world :=
  if (ndims <? 0)%Z || (nbatch <? 0)%Z then (Raise ValueError, w)
  else
    let '(z, w') := draw (Z.to_nat ndims * Z.to_nat nbatch) w in
    (Ok (Tensor [Z.to_nat ndims; Z.to_nat nbatch] z), w').

Definition TFGaussian_init (ndims nbatch : Z) (sigma : pynum) (kw : kwargs)
    (w : world) : result TFGaussian * world :=
  match TFGaussian_gen_init_X ndims nbatch w with
  | (Ok Xinit, w') =>
      (base ← TensorflowDistribution_init ndims nbatch
                (Ok (TFGaussian_build_energy_op sigma)) "TFGaussian" kw;
       Ok {| g_base := base; sigma := sigma; g_Xinit := Xinit |}, w')
  | (Raise e, w') => (Raise e, w')
  end.

Definition TFGaussian_hash (self : TFGaussian) : Z :=
  PyHash.hash_tuple [PyHash.hash_int (ndims (g_base self));
                     hash_num (sigma self)].

(** ** SparseImageCode *)

Record SparseImageCode : Type := {
  s_base : TensorflowDistribution;
  max_n_particles : Z;
  lmbda : float;
  imgs : ndarray;
  basis : ndarray;
  img_size : nat;
  n_coeffs : nat;
  n_patches : Z;
  cauchy : bool;
  patches : tensor float
}.

Definition all_ : index := Slc None None.

(** [self.energy_op], the part of [build_energy_op] that runs on every
    evaluation: [patches] and [full_tiled_basis] are the constants the
    graph holds. *)
Definition SparseImageCode_energy_op (patches full_tiled_basis : tensor float)
    (n_coeffs : nat) (n_patches : Z) (lmbda : float) (cauchy : bool) : graph :=
  λ A _ state_pl,
    let n_active := Z.of_nat (nth 1 (shape state_pl) 0) in
    shaped_state ←
      reshape state_pl [n_patches; (-1)%Z; Z.of_nat n_coeffs; 1%Z];
    shaped_basis ←
      getitem (to_tf full_tiled_basis)
              [all_; Slc None (Some n_active); all_; all_];
    product ← batch_matmul shaped_basis shaped_state;
    reconstructions ← getitem product [all_; all_; all_; Idx 0];
    residual ← tf_sub (to_tf patches) reconstructions;
    halved ← tf_mul (scalar 0.5) (tf_pow residual 2);
    per_patch ← reduce_sum halved (-1);
    reconstruction_error ← reduce_mean per_patch 0;
    sp_penalty ←
      (if cauchy then
         one_plus ← tf_add (scalar 1) (tf_pow state_pl 2);
         total ← reduce_sum (tf_log one_plus) 0;
         tf_mul (scalar (F2R lmbda)) total
       else
         total ← reduce_sum (tf_abs state_pl) 0;
         tf_mul (scalar (F2R lmbda)) total);
    tf_add reconstruction_error sp_penalty.

(** [build_energy_op]: the constants are prepared when the graph is built. *)
Definition SparseImageCode_build_energy_op (patches basis : tensor float)
    (img_size n_coeffs : nat) (n_patches nbatch : Z) (lmbda : float)
    (cauchy : bool) : result graph :=
  patches3 ← reshape patches [n_patches; 1%Z; Z.of_nat img_size];
  basis4 ← reshape basis [1%Z; 1%Z; Z.of_nat img_size; Z.of_nat n_coeffs];
  full_tiled_basis_arr ←
    (if (n_patches <? 0)%Z || (nbatch <? 0)%Z then Raise ValueError
     else tile basis4 [Z.to_nat n_patches; Z.to_nat nbatch; 1; 1]);
  Ok (SparseImageCode_energy_op patches3 full_tiled_basis_arr n_coeffs
        n_patches lmbda cauchy).

Definition SparseImageCode_init (n_patches n_batches : Z) (cauchy : bool)
    (n_basis : Z) (kw : kwargs) (w : world) : result SparseImageCode :=
  let max_n_particles := 50%Z in
  let lmbda := 0x1.47ae147ae147bp-7%float in
  if negb ((n_basis =? 1024)%Z || (n_basis =? 512)%Z)
  then Raise AssertionError
  else
    '(data, basis) ← of_option IOError (dumps w !! n_basis);
    (* arrays come out of [pickle.load] writable *)
    let imgs := NdArray data true in
    let basis := NdArray basis true in
    '(img_size, n_coeffs) ←
      match shape (nd_tensor basis) with
      | [a; b] => Ok (a, b)
      | _ => Raise ValueError
      end;
    let ndims := (n_patches * Z.of_nat n_coeffs)%Z in
    let nbatch := n_batches in
    selected ← getitem (nd_tensor imgs) [all_; Slc None (Some n_patches)];
    patches ← transpose selected;
    base ← TensorflowDistribution_init ndims nbatch
           (SparseImageCode_build_energy_op patches (nd_tensor basis)
              img_size n_coeffs n_patches nbatch lmbda cauchy)
           "SparseImageCode" kw;
    Ok {| s_base := base; max_n_particles := max_n_particles;
          lmbda := lmbda; imgs := imgs; basis := basis;
          img_size := img_size; n_coeffs := n_coeffs;
          n_patches := n_patches; cauchy := cauchy; patches := patches |}.

(** [__hash__]: returns the hash and the object as the call leaves it. *)
Definition SparseImageCode_hash (self : SparseImageCode)
  : result Z * SparseImageCode :=
  let self' :=
    {| s_base := s_base self; max_n_particles := max_n_particles self;
       lmbda := lmbda self;
       imgs := set_writeable false (imgs self);
       basis := set_writeable false (basis self);
       img_size := img_size self; n_coeffs := n_coeffs self;
       n_patches := n_patches self; cauchy := cauchy self;
       patches := patches self |} in
  (h_imgs ← hash_buffer (imgs self');
   h_basis ← hash_buffer (basis self');
   Ok (PyHash.hash_tuple
         (PyHash.hash_int <$>
            [h_imgs; h_basis; PyHash.hash_float (lmbda self');
             PyHash.hash_int (n_patches self'); Z.of_nat (n_coeffs self')])),
   self').

(** ** The three supported models, and how they come to exist *)

Inductive model : Type :=
| MFunnel (f : Funnel)
| MGaussian (g : TFGaussian)
| MSparse (s : SparseImageCode).

Definition base (m : model) : TensorflowDistribution :=
  match m with
  | MFunnel f => f_base f
  | MGaussian g => g_base g
  | MSparse s => s_base s
  end.

(** The constructor calls of the three classes. *)
Inductive model_args : Type :=
| FunnelArgs (scale : pynum) (nbatch ndims : Z)
| TFGaussianArgs (ndims nbatch : Z) (sigma : pynum)
| SparseImageCodeArgs (n_patches n_batches : Z) (cauchy : bool) (n_basis : Z).

Definition construct (a : model_args) (kw : kwargs) (w : world)
  : result model * world :=
  match a with
  | FunnelArgs scale nbatch ndims =>
      let '(r, w') := Funnel_init scale nbatch ndims kw w in (MFunnel <$> r, w')
  | TFGaussianArgs ndims nbatch sigma =>
      let '(r, w') := TFGaussian_init ndims nbatch sigma kw w in
      (MGaussian <$> r, w')
  | SparseImageCodeArgs n_patches n_batches cauchy n_basis =>
      (MSparse <$> SparseImageCode_init n_patches n_batches cauchy n_basis kw w,
       w)
  end.

(** Every array stored in a dump has as many entries as its shape says. *)
Definition world_wf (w : world) : Prop :=
  ∀ n d b, dumps w !! n = Some (d, b) → wf d ∧ wf b.

Definition constructed (m : model) : Prop :=
  ∃ a kw w w', world_wf w ∧ construct a kw w = (Ok m, w').

(** Whether the trace of a call can be written when tracing is on. *)
Definition trace_writable (self : TensorflowDistribution) (kind : string)
    (w : world) : Prop :=
  prof_run self = true → can_open w (log_path self kind w) = true.

(** ** What the specification says the energies are *)

(** Entry [[i, j]] and column [j] of a two-dimensional batch. *)
Definition entry (X : tensor R) (i j : nat) : R :=
  nth (i * nth 1 (shape X) 0 + j) (data X) 0%R.

Definition column (X : tensor R) (j : nat) : list R :=
  (λ i, entry X i j) <$> seq 0 (nth 0 (shape X) 0).

Definition Rsum (l : list R) : R := foldr Rplus 0%R l.

(** [-(x0^2/scale^2) - sum_k (x_k^2 / exp(x0))]. *)
Definition spec_funnel_energy (scale : R) (x : list R) : R :=
  match x with
  | [] => 0
  | x0 :: xk => - (x0 ^ 2 / scale ^ 2) - Rsum ((λ x, x ^ 2 / exp x0) <$> xk)
  end%R.


(** One half of the mean, over the rows of [patches], of the sum of the
    squared pixels of the row. *)
Definition spec_zero_code_energy (patches : tensor float) : R :=
  let rows := chunks (nth 0 (shape patches) 0) (nth 1 (shape patches) 0)
                     (data patches) in
  (/ 2 * (Rsum ((λ row, Rsum ((λ x, F2R x ^ 2) <$> row)) <$> rows)
          / INR (length rows)))%R.

(** ** Further notions the properties below are stated with *)

(** The [name] each class hands to the base constructor. *)
Definition class_name (m : model) : string :=
  match m with
  | MFunnel _ => "Funnel"
  | MGaussian _ => "TFGaussian"
  | MSparse _ => "SparseImageCode"
  end.

(** ** Concrete objects used in the examples *)

Definition cpu : kwargs := Kwargs (DevStr "/cpu:0") false.

Definition small_dump : tensor float * tensor float :=
  (Tensor [1; 1] [2%float], Tensor [1; 2] [0%float; 1%float]).

Definition quiet_world : world :=
  World (λ _, 0%R) "0.0" "/root" (λ _, true) ∅ "{}" {[ 512%Z := small_dump ]}.

(** * Proofs *)

Ltac eval_graph :=
  cbv - [Rplus Rmult Rinv Ropp Rminus Rdiv exp ln Rabs IZR pow].


(** ** Buffers cut into blocks *)

Lemma numel_app s1 s2 : numel (s1 ++ s2) = numel s1 * numel s2.
Proof. induction s1 as [|n s1 IH]; simpl; [lia|]. rewrite IH. lia. Qed.

Lemma numel_replicate_1 k : numel (replicate k 1) = 1.
Proof. induction k; simpl; lia. Qed.

Lemma length_concat_uniform {B} (l : list (list B)) k :
  Forall (λ c, length c = k) l → length (concat l) = length l * k.
Proof.
  induction 1 as [|c l Hc _ IH]; simpl; [done|].
  rewrite length_app, IH, Hc. done.
Qed.

Section lists.
Context {A : Type}.
Implicit Types d : list A.

Lemma length_chunks n k d : length (chunks n k d) = n.
Proof. revert d. induction n; intros; simpl; [done|]. by rewrite IHn. Qed.

Lemma chunks_lengths n k d :
  n * k ≤ length d → Forall (λ c, length c = k) (chunks n k d).
Proof.
  revert d. induction n as [|n IH]; intros d Hd; simpl; [constructor|].
  constructor.
  - rewrite length_take. lia.
  - apply IH. rewrite length_drop. lia.
Qed.

Lemma concat_chunks n k d : length d = n * k → concat (chunks n k d) = d.
Proof.
  revert d. induction n as [|n IH]; intros d Hd; simpl.
  - by destruct d.
  - rewrite IH; [apply take_drop|]. rewrite length_drop. lia.
Qed.


Lemma Forall_fmap_length {B} (f : list A → list B) (l : list (list A)) k k' :
  (∀ c, length c = k → length (f c) = k') →
  Forall (λ c, length c = k) l →
  Forall (λ c, length c = k') (f <$> l).
Proof. intros Hf. induction 1; simpl; constructor; auto. Qed.

Lemma length_concat_fmap_chunks {B} (f : list A → list B) n k k' d :
  n * k ≤ length d →
  (∀ c, length c = k → length (f c) = k') →
  length (concat (f <$> chunks n k d)) = n * k'.
Proof.
  intros Hd Hf.
  rewrite (length_concat_uniform _ k').
  - by rewrite length_fmap, length_chunks.
  - eapply Forall_fmap_length; [done|]. by apply chunks_lengths.
Qed.

(** *** Broadcasting *)








Lemma tmap_wf (f : A → A) (t : tensor A) : wf t → wf (tmap f t).
Proof. unfold wf, tmap. simpl. by rewrite length_fmap. Qed.

(** *** Indexing *)

Lemma norm_bound_le n dflt b : dflt ≤ n → norm_bound n dflt b ≤ n.
Proof. intros. unfold norm_bound. destruct b; lia. Qed.

Lemma getitem_data_length ix s s' d :
  getitem_shape ix s = Ok s' → length d = numel s →
  length (getitem_data ix s d) = numel s'.
Proof.
  revert s s' d. induction ix as [|i ix IH]; intros s s' d Hs Hd.
  - simpl in Hs. injection Hs as <-. by destruct s.
  - destruct s as [|n s]; [by destruct i|]. simpl in Hd.
    destruct i as [i|lo hi]; simpl in *.
    + destruct (Z.leb_spec 0 (norm_index n i)); simpl in Hs; [|done].
      destruct (Z.ltb_spec (norm_index n i) (Z.of_nat n)); simpl in Hs; [|done].
      apply IH; [done|]. rewrite length_take, length_drop.
      assert (Z.to_nat (norm_index n i) < n) by lia. nia.
    + destruct (getitem_shape ix s) as [s0|] eqn:Hs0; simpl in Hs; [|done].
      injection Hs as <-. simpl.
      pose proof (norm_bound_le n n hi (le_n _)).
      pose proof (norm_bound_le n 0 lo (Nat.le_0_l _)).
      apply length_concat_fmap_chunks.
      * rewrite length_drop. nia.
      * intros c Hc. by apply IH.
Qed.

End lists.


Section structure_lemmas.
Context {A : Type}.
Implicit Types d : list A.

Lemma columns_lengths c (rows : list (list A)) :
  Forall (λ r, length r = c) rows →
  length (columns c rows) = c ∧
  Forall (λ col, length col = length rows) (columns c rows).
Proof.
  revert rows. induction c as [|c IH]; intros rows Hr; simpl.
  - split; [done|constructor].
  - destruct (IH (drop 1 <$> rows)) as [IH1 IH2].
    { clear IH. induction Hr as [|r rows Hr _ IHr]; simpl; constructor; [|done].
      rewrite length_drop. cbv beta in Hr. lia. }
    split; [by rewrite IH1|]. constructor.
    + clear IH IH1 IH2. induction Hr as [|r rows Hr _ IHr]; [done|].
      cbv beta in Hr. rewrite bind_cons, length_app, IHr, length_take, Hr.
      simpl. lia.
    + by rewrite length_fmap in IH2.
Qed.

Lemma transpose_ok (t : tensor A) r c :
  shape t = [r; c] → wf t →
  ∃ t', transpose t = Ok t' ∧ shape t' = [c; r] ∧ wf t'.
Proof.
  intros Hs Ht. unfold transpose. rewrite Hs. eexists. split; [done|].
  split; [done|]. unfold wf in *. rewrite Hs in Ht. simpl in *.
  destruct (columns_lengths c (chunks r c (data t))) as [H1 H2].
  { apply chunks_lengths. lia. }
  rewrite (length_concat_uniform _ _ H2), H1, length_chunks. lia.
Qed.

Lemma tile_data_length s reps d :
  length reps = length s → length d = numel s →
  length (tile_data s reps d) = numel (zip_with Nat.mul s reps).
Proof.
  revert reps d. induction s as [|n s IH]; intros [|r reps] d Hl Hd;
    simpl in *; try done.
  rewrite (length_concat_uniform _ (n * numel (zip_with Nat.mul s reps))).
  - rewrite length_replicate. lia.
  - apply Forall_replicate. apply length_concat_fmap_chunks; [lia|].
    intros c Hc. apply IH; [lia|done].
Qed.


Lemma known_dims_nonneg target :
  Forall (λ z, (0 ≤ z)%Z) target → known_dims target = target.
Proof.
  unfold known_dims. induction 1 as [|z l Hz _ IH]; [done|].
  rewrite filter_cons, decide_True by lia. by rewrite IH.
Qed.

Lemma reshape_exact (t : tensor A) target :
  Forall (λ z, (0 ≤ z)%Z) target →
  Z.to_nat (foldr Z.mul 1%Z target) = numel (shape t) →
  reshape t target = Ok (Tensor (Z.to_nat <$> target) (data t)).
Proof.
  intros Hf Hn. unfold reshape. rewrite known_dims_nonneg by done.
  rewrite decide_True by done. rewrite Nat.sub_diag.
  by rewrite decide_True.
Qed.

Lemma reshape_exact_inv (t t' : tensor A) target :
  Forall (λ z, z ≠ (-1)%Z) target →
  reshape t target = Ok t' →
  Forall (λ z, (0 ≤ z)%Z) target ∧
  Z.to_nat (foldr Z.mul 1%Z target) = numel (shape t) ∧
  t' = Tensor (Z.to_nat <$> target) (data t).
Proof.
  intros Hne. unfold reshape.
  assert (known_dims target = target) as ->.
  { unfold known_dims. induction Hne as [|z l Hz _ IH]; [done|].
    rewrite filter_cons, decide_True by done. by rewrite IH. }
  case_decide; [|done]. rewrite Nat.sub_diag. case_decide; [|done].
  by intros [= <-].
Qed.

End structure_lemmas.

Section arithmetic_lemmas.
Context {A : Type} `{!Scalar A}.


Lemma foldl_zip_with_length (f : A → A → A) k rows acc :
  length acc = k → Forall (λ c : list A, length c = k) rows →
  length (foldl (zip_with f) acc rows) = k.
Proof.
  intros Ha Hr. revert acc Ha. induction Hr as [|r rows Hr _ IH]; intros acc Ha.
  - done.
  - simpl. apply IH. rewrite length_zip_with. lia.
Qed.

Lemma sum_rows_length k (rows : list (list A)) :
  Forall (λ c, length c = k) rows → length (sum_rows k rows) = k.
Proof.
  intros. apply foldl_zip_with_length; [|done]. apply length_replicate.
Qed.

Lemma axis_of_nat rank a :
  a < rank → axis_of rank (Z.of_nat a) = Some a.
Proof.
  intros. unfold axis_of, norm_index.
  destruct (Z.ltb_spec (Z.of_nat a) 0); [lia|].
  destruct (Z.leb_spec 0 (Z.of_nat a)); [|lia].
  destruct (Z.ltb_spec (Z.of_nat a) (Z.of_nat rank)); [|lia].
  simpl. by rewrite Nat2Z.id.
Qed.


Lemma split_axis_app pre n tl :
  split_axis (length pre) (pre ++ n :: tl) = Some (pre, n, tl).
Proof.
  unfold split_axis. by rewrite drop_app_length, take_app_length.
Qed.

Lemma reduce_with_ok post (t : tensor A) axis pre n tl :
  axis_of (length (shape t)) axis = Some (length pre) →
  shape t = pre ++ n :: tl → wf t →
  (∀ n (l : list A), length (post n l) = length l) →
  ∃ t', reduce_with post t axis = Ok t' ∧ shape t' = pre ++ tl ∧ wf t'.
Proof.
  intros Ha Hs Ht Hpost. unfold reduce_with. rewrite Ha. simpl.
  rewrite Hs, split_axis_app. eexists. split; [done|]. split; [done|].
  unfold wf in *. simpl. rewrite Hs, numel_app in Ht. simpl in Ht.
  rewrite numel_app. apply length_concat_fmap_chunks; [lia|].
  intros c Hc. rewrite Hpost. apply sum_rows_length.
  apply chunks_lengths. lia.
Qed.

Lemma reduce_sum_ok (t : tensor A) axis pre n tl :
  axis_of (length (shape t)) axis = Some (length pre) →
  shape t = pre ++ n :: tl → wf t →
  ∃ t', reduce_sum t axis = Ok t' ∧ shape t' = pre ++ tl ∧ wf t'.
Proof. intros. by eapply reduce_with_ok. Qed.




End arithmetic_lemmas.


(** *** Shapes that broadcast *)

Lemma bdim_refl a : bdim a a = Some a.
Proof. unfold bdim. by rewrite Nat.eqb_refl. Qed.

Lemma bdim_1_l a : bdim 1 a = Some a.
Proof. unfold bdim. destruct (Nat.eqb_spec 1 a); [by subst|done]. Qed.

Lemma bdim_1_r a : bdim a 1 = Some a.
Proof.
  unfold bdim. destruct (Nat.eqb_spec a 1); [done|].
  simpl. done.
Qed.

Lemma bzip_refl s : bzip s s = Some s.
Proof. induction s as [|a s IH]; [done|]. simpl. by rewrite bdim_refl, IH. Qed.

Lemma bzip_ones_l pre s :
  bzip (replicate (length pre) 1 ++ s) (pre ++ s) = Some (pre ++ s).
Proof.
  induction pre as [|a pre IH]; simpl; [apply bzip_refl|].
  by rewrite bdim_1_l, IH.
Qed.

Lemma bzip_ones_r pre s :
  bzip (pre ++ s) (replicate (length pre) 1 ++ s) = Some (pre ++ s).
Proof.
  induction pre as [|a pre IH]; simpl; [apply bzip_refl|].
  by rewrite bdim_1_r, IH.
Qed.

Lemma bshape_suffix_l pre s : bshape s (pre ++ s) = Some (pre ++ s).
Proof.
  unfold bshape, pad. rewrite length_app.
  replace (length s `max` (length pre + length s)) with (length pre + length s) by lia.
  replace (length pre + length s - length s) with (length pre) by lia.
  rewrite Nat.sub_diag. simpl. apply bzip_ones_l.
Qed.

Lemma bshape_suffix_r pre s : bshape (pre ++ s) s = Some (pre ++ s).
Proof.
  unfold bshape, pad. rewrite length_app.
  replace ((length pre + length s) `max` length s) with (length pre + length s) by lia.
  replace (length pre + length s - length s) with (length pre) by lia.
  rewrite Nat.sub_diag. simpl. apply bzip_ones_r.
Qed.



Lemma bshape_nil_r s : bshape s [] = Some s.
Proof. pose proof (bshape_suffix_r s []) as H. by rewrite app_nil_r in H. Qed.


(** *** The indexings of the module *)

Lemma getitem_shape_first n b :
  0 < n → getitem_shape [Idx 0; all_] [n; b] = Ok [b].
Proof.
  intros. simpl. unfold norm_index. simpl.
  destruct (Z.ltb_spec 0 (Z.of_nat n)); [|lia].
  simpl. by rewrite Nat.sub_0_r.
Qed.

Lemma getitem_shape_rest n b :
  0 < n → getitem_shape [Slc (Some 1%Z) None; all_] [n; b] = Ok [n - 1; b].
Proof.
  intros. simpl. unfold norm_index. simpl.
  rewrite Nat.sub_0_r. do 3 f_equal. lia.
Qed.



(** *** The energy graphs return one entry per batch column *)

Ltac step H :=
  let t := fresh "t" in let Hs := fresh "Hs" in let Hw := fresh "Hw" in
  cbn [mbind result_bind];
  destruct H as (t & -> & Hs & Hw); [..|cbn [mbind result_bind]].

Section energy_shapes.
Context {A : Type} `{!Scalar A}.







End energy_shapes.

Lemma SparseImageCode_build_inv patches basis I C n_patches nbatch lmbda
    cauchy op :
  SparseImageCode_build_energy_op patches basis I C n_patches nbatch lmbda
    cauchy = Ok op →
  wf patches → wf basis →
  ∃ patches3 tiled : tensor float,
    (0 ≤ n_patches)%Z ∧ (0 ≤ nbatch)%Z ∧
    shape patches3 = [Z.to_nat n_patches; 1; I] ∧
    data patches3 = data patches ∧ wf patches3 ∧
    shape tiled = [Z.to_nat n_patches; Z.to_nat nbatch; I; C] ∧ wf tiled ∧
    op = SparseImageCode_energy_op patches3 tiled C n_patches lmbda cauchy.
Proof.
  intros Hb Wp Wb. unfold SparseImageCode_build_energy_op in Hb.
  destruct (reshape patches _) as [patches3|] eqn:Hp3; [|done].
  cbn [mbind result_bind] in Hb.
  destruct (reshape basis _) as [basis4|] eqn:Hb4; [|done].
  cbn [mbind result_bind] in Hb.
  destruct (Z.ltb_spec n_patches 0); [done|].
  destruct (Z.ltb_spec nbatch 0); [done|].
  cbn [orb] in Hb.
  destruct (tile basis4 _) as [tiled|] eqn:Ht; [|done].
  cbn [mbind result_bind] in Hb. injection Hb as <-.
  apply reshape_exact_inv in Hp3 as (Fp & Np & ->); [|repeat constructor; lia].
  apply reshape_exact_inv in Hb4 as (Fb & Nb & ->); [|repeat constructor; lia].
  unfold tile in Ht. rewrite decide_True in Ht by done. injection Ht as <-.
  exists (Tensor (Z.to_nat <$> [n_patches; 1%Z; Z.of_nat I]) (data patches)),
    (Tensor (zip_with Nat.mul
               (Z.to_nat <$> [1%Z; 1%Z; Z.of_nat I; Z.of_nat C])
               [Z.to_nat n_patches; Z.to_nat nbatch; 1; 1])
            (tile_data (Z.to_nat <$> [1%Z; 1%Z; Z.of_nat I; Z.of_nat C])
                       [Z.to_nat n_patches; Z.to_nat nbatch; 1; 1]
                       (data basis))).
  split_and!; [done|done|..|reflexivity].
  - cbn [shape fmap list_fmap]. by rewrite Nat2Z.id.
  - done.
  - unfold wf in *. simpl in *. lia.
  - cbn [shape fmap list_fmap zip_with]. rewrite !Nat2Z.id.
    f_equal; [|f_equal; [|f_equal; [|f_equal]]]; simpl; lia.
  - unfold wf. cbn [shape data]. rewrite tile_data_length; [done|done|].
    unfold wf in Wb. rewrite Wb, <- Nb.
    replace (foldr Z.mul 1%Z [1%Z; 1%Z; Z.of_nat I; Z.of_nat C])
      with (Z.of_nat (I * C)) by (cbn [foldr]; lia).
    rewrite Nat2Z.id. cbn [fmap list_fmap numel foldr]. rewrite !Nat2Z.id.
    simpl. lia.
Qed.

Section sparse_shapes.
Context {A : Type} `{!Scalar A}.


End sparse_shapes.

Section values.
Context {A : Type}.

Lemma bcast_to_same s (d : list A) : length d = numel s → bcast_to s s d = d.
Proof.
  revert d. induction s as [|n s IH]; intros d Hd; [done|].
  simpl in *. rewrite Nat.eqb_refl.
  rewrite <- (concat_chunks n (numel s) d) at 2 by lia.
  f_equal. apply list_eq_Forall2, Forall2_fmap_l, Forall_Forall2_diag.
  eapply Forall_impl; [apply chunks_lengths; lia|]. intros c Hc. by apply IH.
Qed.

Lemma bcast_to_ones s (c : A) :
  bcast_to (replicate (length s) 1) s [c] = replicate (numel s) c.
Proof.
  induction s as [|n s IH]; [done|].
  cbn [length replicate bcast_to]. rewrite numel_replicate_1.
  destruct (Nat.eqb_spec 1 n) as [<-|Hn].
  - cbn [chunks fmap list_fmap concat]. change (take 1 [c]) with [c].
    rewrite IH, app_nil_r.
    simpl. by rewrite Nat.add_0_r.
  - rewrite IH. clear. induction n as [|n IHn]; [done|].
    simpl. by rewrite IHn, replicate_add.
Qed.

Lemma nth_chunks (d : list A) n k j o x0 :
  j < k →
  (λ row, nth j row x0) <$> chunks n k (drop o d)
  = (λ i, nth (o + i * k + j) d x0) <$> seq 0 n.
Proof.
  intros Hj. revert o. induction n as [|n IH]; intros o; [done|].
  cbn [chunks seq fmap list_fmap]. f_equal.
  - rewrite nth_firstn. destruct (Nat.ltb_spec j k); [|lia].
    rewrite nth_skipn. f_equal. lia.
  - rewrite drop_drop, IH, <- fmap_S_seq, <- list_fmap_compose.
    apply list_fmap_ext. intros _ i _. simpl. f_equal. lia.
Qed.

Lemma pad_same (s : list nat) : pad (length s) s = s.
Proof. unfold pad. by rewrite Nat.sub_diag. Qed.

Lemma pad_nil r : pad r [] = replicate r 1.
Proof. unfold pad. simpl. by rewrite Nat.sub_0_r, app_nil_r. Qed.

Lemma binop_scalar_r (f : A → A → A) (t : tensor A) c :
  wf t →
  binop f t (Tensor [] [c]) = Ok (Tensor (shape t) (flip f c <$> data t)).
Proof.
  intros Wt. unfold binop. cbn [shape data]. rewrite bshape_nil_r.
  rewrite pad_same, pad_nil, bcast_to_ones, bcast_to_same by done.
  by rewrite zip_with_replicate_r_eq.
Qed.


End values.

Lemma nth_sum_rows_acc k (rows : list (list R)) (acc : list R) j :
  length acc = k → Forall (λ r, length r = k) rows → j < k →
  nth j (foldl (zip_with Rplus) acc rows) 0%R
  = (nth j acc 0 + Rsum ((λ row, nth j row 0%R) <$> rows))%R.
Proof.
  intros Ha Hr Hj. revert acc Ha.
  induction Hr as [|r rows Hr _ IH]; intros acc Ha; cbn [foldl].
  - unfold Rsum. simpl. lra.
  - rewrite IH by (rewrite length_zip_with; lia).
    assert (nth j (zip_with Rplus acc r) 0 = nth j acc 0 + nth j r 0)%R as ->.
    { rewrite !nth_lookup, lookup_zip_with.
      destruct (lookup_lt_is_Some_2 acc j) as [a ->]; [lia|].
      destruct (lookup_lt_is_Some_2 r j) as [x ->]; [lia|]. done. }
    rewrite fmap_cons. unfold Rsum. cbn [foldr]. lra.
Qed.

Lemma nth_sum_rows k (rows : list (list R)) j :
  Forall (λ r, length r = k) rows → j < k →
  nth j (sum_rows k rows) 0%R = Rsum ((λ row, nth j row 0%R) <$> rows).
Proof.
  intros Hr Hj. unfold sum_rows.
  rewrite nth_sum_rows_acc with (k := k); [|apply length_replicate|done|done].
  rewrite nth_lookup, lookup_replicate_2 by done. simpl. lra.
Qed.

(** Summing a two-dimensional real tensor over its first axis sums each of
    its columns. *)
Lemma reduce_sum_columns (X : tensor R) n b :
  shape X = [n; b] → wf X →
  ∃ E, reduce_sum X 0 = Ok E ∧ shape E = [b] ∧ wf E ∧
       ∀ j, j < b → nth j (data E) 0%R = Rsum (column X j).
Proof.
  intros HX WX.
  destruct (reduce_sum_ok X 0 [] n [b]) as (E & HE & Hs & Hw);
    [by rewrite HX|done|done|].
  exists E. split_and!; try done. intros j Hj.
  unfold reduce_sum, reduce_with in HE. rewrite HX in HE. simpl in HE.
  injection HE as <-. simpl. rewrite !app_nil_r, Nat.mul_1_r.
  unfold wf in WX. rewrite HX in WX. simpl in WX.
  rewrite take_ge by lia.
  rewrite nth_sum_rows; [|apply chunks_lengths; lia|done].
  f_equal. rewrite <- (drop_0 (data X)) at 1.
  rewrite nth_chunks by done. unfold column, entry. rewrite HX. done.
Qed.



(** ** Rows of a batch *)

Section rows.
Context {A : Type}.

Lemma getitem_data_all (b : nat) (d : list A) :
  length d = b → getitem_data [Slc None None] [b] d = d.
Proof.
  intros Hd. cbn [getitem_data norm_bound numel foldr].
  rewrite Nat.sub_0_r, Nat.mul_0_l, drop_0.
  rewrite list_fmap_id. apply concat_chunks. lia.
Qed.

Lemma getitem_first_row (X : tensor A) n b :
  0 < n → shape X = [n; b] → wf X →
  getitem X [Idx 0; Slc None None] = Ok (Tensor [b] (take b (data X))).
Proof.
  intros Hn HX WX. unfold getitem.
  rewrite HX, getitem_shape_first by done. cbn [mbind result_bind].
  f_equal. f_equal. unfold wf in WX. rewrite HX in WX. simpl in WX.
  cbn [getitem_data]. unfold norm_index. cbn [Z.ltb Z.compare Z.to_nat].
  rewrite Nat.mul_0_l, drop_0.
  replace (numel [b]) with b by (simpl; lia).
  apply getitem_data_all. rewrite length_take. nia.
Qed.

Lemma getitem_other_rows (X : tensor A) n b :
  0 < n → shape X = [n; b] → wf X →
  getitem X [Slc (Some 1%Z) None; Slc None None]
  = Ok (Tensor [n - 1; b] (drop b (data X))).
Proof.
  intros Hn HX WX. unfold getitem.
  rewrite HX, getitem_shape_rest by done. cbn [mbind result_bind].
  f_equal. f_equal. unfold wf in WX. rewrite HX in WX. simpl in WX.
  cbn [getitem_data].
  replace (norm_bound n 0 (Some 1%Z)) with 1
    by (unfold norm_bound, norm_index; simpl; lia).
  cbn [norm_bound]. replace (numel [b]) with b by (simpl; lia).
  rewrite Nat.mul_1_l.
  rewrite (list_fmap_ext _ (λ c, c) (chunks (n - 1) b (drop b (data X)))).
  - rewrite list_fmap_id. apply concat_chunks. rewrite length_drop. nia.
  - intros i c Hc. apply getitem_data_all.
    eapply (Forall_lookup_1 _ _ _ _ (chunks_lengths (n - 1) b _ _) Hc).
    Unshelve. rewrite length_drop. nia.
Qed.

Lemma bcast_to_rows m b (d : list A) :
  length d = b → bcast_to [1; b] [m; b] d = concat (replicate m d).
Proof.
  intros Hd. cbn [bcast_to]. destruct (Nat.eqb_spec 1 m) as [<-|Hm].
  - replace (numel [b]) with b by (simpl; lia).
    cbn [chunks fmap list_fmap concat replicate].
    rewrite take_ge by lia. f_equal. apply (bcast_to_same [b]). simpl. lia.
  - f_equal. f_equal. apply (bcast_to_same [b]). simpl. lia.
Qed.

Lemma binop_rows_r (f : A → A → A) (t1 t2 : tensor A) m b :
  shape t1 = [m; b] → shape t2 = [b] → wf t1 → wf t2 →
  binop f t1 t2
  = Ok (Tensor [m; b] (zip_with f (data t1) (concat (replicate m (data t2))))).
Proof.
  intros H1 H2 W1 W2. unfold binop.
  rewrite H1, H2. change [m; b] with ([m] ++ [b]).
  rewrite (bshape_suffix_r [m] [b]). cbn [app length].
  change (pad 2 [m; b]) with [m; b]. change (pad 2 [b]) with [1; b].
  rewrite bcast_to_same by (by rewrite W1, H1).
  rewrite bcast_to_rows by (rewrite W2, H2; simpl; lia). done.
Qed.

Lemma binop_rows_l (f : A → A → A) (t1 t2 : tensor A) m b :
  shape t1 = [b] → shape t2 = [m; b] → wf t1 → wf t2 →
  binop f t1 t2
  = Ok (Tensor [m; b] (zip_with f (concat (replicate m (data t1))) (data t2))).
Proof.
  intros H1 H2 W1 W2. unfold binop.
  rewrite H1, H2. change [m; b] with ([m] ++ [b]).
  rewrite (bshape_suffix_l [m] [b]). cbn [app length].
  change (pad 2 [m; b]) with [m; b]. change (pad 2 [b]) with [1; b].
  rewrite (bcast_to_same [m; b]) by (by rewrite W2, H2).
  rewrite bcast_to_rows by (rewrite W1, H1; simpl; lia). done.
Qed.

Lemma nth_concat_replicate m (d : list A) i j x0 :
  i < m → j < length d →
  nth (i * length d + j) (concat (replicate m d)) x0 = nth j d x0.
Proof.
  revert i. induction m as [|m IH]; intros i Hi Hj; [lia|].
  cbn [replicate concat]. destruct i as [|i].
  - simpl. by rewrite app_nth1.
  - rewrite app_nth2 by (simpl; lia).
    replace (S i * length d + j - length d) with (i * length d + j) by (simpl; lia).
    apply IH; lia.
Qed.
End rows.

Lemma nth_fmap_R (f : R → R) (l : list R) i :
  i < length l → nth i (f <$> l) 0%R = f (nth i l 0%R).
Proof.
  intros Hi. rewrite !nth_lookup, list_lookup_fmap.
  by destruct (lookup_lt_is_Some_2 l i Hi) as [x ->].
Qed.

Lemma nth_zip_with_R (f : R → R → R) (l k : list R) i :
  i < length l → i < length k →
  nth i (zip_with f l k) 0%R = f (nth i l 0%R) (nth i k 0%R).
Proof.
  intros Hl Hk. rewrite !nth_lookup, lookup_zip_with.
  destruct (lookup_lt_is_Some_2 l i Hl) as [x ->].
  by destruct (lookup_lt_is_Some_2 k i Hk) as [y ->].
Qed.

Lemma length_concat_replicate {A} m (d : list A) :
  length (concat (replicate m d)) = m * length d.
Proof.
  rewrite (length_concat_uniform _ (length d)).
  - by rewrite length_replicate.
  - by apply Forall_replicate.
Qed.

(** What the Funnel graph returns, column by column. *)
Lemma Funnel_energy_value scale (X : tensor R) n b :
  0 < n → shape X = [n; b] → wf X →
  ∃ E, Funnel_build_energy_op scale R _ X = Ok E ∧ shape E = [b] ∧ wf E ∧
       ∀ j, j < b →
         nth j (data E) 0%R
         = Rsum ((λ i, - (entry X 0 j ^ 2 / F2R scale ^ 2)
                       + - (entry X (S i) j ^ 2 / exp (entry X 0 j)))%R
                   <$> seq 0 (n - 1)).
Proof.
  intros Hn HX WX. unfold Funnel_build_energy_op.
  pose proof WX as Hd. unfold wf in Hd. rewrite HX in Hd. simpl in Hd.
  rewrite (getitem_first_row X n b) by done. cbn [mbind result_bind].
  set (x0 := Tensor [b] (take b (data X))).
  assert (wf x0) as W0 by (unfold wf, x0; simpl; rewrite length_take; nia).
  unfold tf_div, tf_add, scalar.
  rewrite binop_scalar_r by (by apply tmap_wf). cbn [mbind result_bind].
  rewrite (getitem_other_rows X n b) by done. cbn [mbind result_bind].
  set (xk := Tensor [n - 1; b] (drop b (data X))).
  assert (wf xk) as Wk by (unfold wf, xk; simpl; rewrite length_drop; nia).
  rewrite (binop_rows_r _ (tf_pow xk 2) (tf_exp x0) (n - 1) b)
    by (done || by apply tmap_wf). cbn [mbind result_bind].
  rewrite (binop_rows_l _ _ _ (n - 1) b);
    [|done|done|unfold wf; simpl; rewrite !length_fmap, length_take; nia|].
  2:{ unfold wf. cbn [tf_neg tmap shape data].
      rewrite length_fmap, length_zip_with, length_concat_replicate.
      cbn [tf_pow tf_exp tmap data xk x0]. rewrite !length_fmap, length_take, length_drop.
      simpl. nia. }
  cbn [mbind result_bind].
  match goal with |- context [reduce_sum ?S 0] => set (s := S) end.
  assert (wf s) as Ws.
  { unfold wf, s. cbn [tf_neg tmap shape data].
    rewrite length_zip_with, length_concat_replicate, !length_fmap,
      length_zip_with, length_concat_replicate.
    cbn [tf_pow tf_exp tmap data xk x0]. rewrite !length_fmap, length_take, length_drop.
    simpl. nia. }
  destruct (reduce_sum_columns s (n - 1) b) as (E & -> & HsE & WE & Hcol);
    [done|done|].
  exists E. split_and!; try done. intros j Hj. rewrite Hcol by done.
  unfold column. cbn [s shape nth]. f_equal.
  apply list_fmap_ext. intros i' i [-> Hi]%lookup_seq. cbn [Nat.add].
  unfold entry at 1. cbn [s shape nth data tf_neg tmap].
  assert (length (take b (data X)) = b) as Lt by (rewrite length_take; nia).
  assert (length (drop b (data X)) = (n - 1) * b) as Ld
    by (rewrite length_drop; nia).
  rewrite nth_zip_with_R.
  2:{ rewrite length_concat_replicate, !length_fmap.
      cbn [tf_pow tmap data x0]. rewrite length_fmap, Lt. nia. }
  2:{ rewrite length_fmap, length_zip_with, length_concat_replicate.
      cbn [tf_pow tf_exp tmap data xk x0]. rewrite !length_fmap, Lt, Ld. nia. }
  f_equal.
  - cbn [tf_pow tmap data x0].
    match goal with
    | |- nth _ (concat (replicate _ ?d)) _ = _ =>
        pose proof (nth_concat_replicate (n - 1) d i' j 0%R) as Hr
    end.
    rewrite !length_fmap, Lt in Hr. rewrite Hr by done.
    rewrite !nth_fmap_R by (rewrite ?length_fmap; lia).
    unfold flip, entry. rewrite HX. cbn [nth]. simpl Nat.mul. simpl Nat.add.
    rewrite nth_firstn. destruct (Nat.ltb_spec j b); [done|lia].
  - rewrite nth_fmap_R.
    2:{ rewrite length_zip_with, length_concat_replicate.
        cbn [tf_pow tf_exp tmap data xk x0]. rewrite !length_fmap, Lt, Ld. nia. }
    f_equal. rewrite nth_zip_with_R.
    2:{ cbn [tf_pow tmap data xk]. rewrite length_fmap, Ld. nia. }
    2:{ rewrite length_concat_replicate. cbn [tf_exp tmap data x0].
        rewrite length_fmap, Lt. nia. }
    f_equal.
    + cbn [tf_pow tmap data xk]. rewrite nth_fmap_R by (rewrite Ld; nia).
      rewrite nth_skipn. unfold entry. rewrite HX. cbn [nth].
      do 2 f_equal. lia.
    + cbn [tf_exp tmap data x0].
      match goal with
      | |- nth _ (concat (replicate _ ?d)) _ = _ =>
          pose proof (nth_concat_replicate (n - 1) d i' j 0%R) as Hr
      end.
      rewrite length_fmap, Lt in Hr. rewrite Hr by done.
      rewrite nth_fmap_R by lia. unfold entry. rewrite HX. cbn [nth].
      simpl Nat.mul. simpl Nat.add.
      rewrite nth_firstn. destruct (Nat.ltb_spec j b); [done|lia].
Qed.

(** ** Construction *)

Lemma TensorflowDistribution_init_inv ndims nbatch build name kw self :
  TensorflowDistribution_init ndims nbatch build name kw = Ok self →
  ∃ g e op,
    resolve_device (kw_device kw) = Ok (g, e) ∧ (0 ≤ ndims)%Z ∧
    build = Ok op ∧
    self = {| ndims := ndims; nbatch := nbatch; grad_device := g;
              energy_device := e; device := e; prof_run := kw_prof_run kw;
              energy_op := op; grad_op := gradients op; name := name;
              backend := "tensorflow" |}.
Proof.
  unfold TensorflowDistribution_init, build_graph.
  destruct (resolve_device (kw_device kw)) as [[g e]|]; simpl; [|done].
  destruct (Z.ltb_spec ndims 0); simpl; [done|].
  destruct build as [op|]; simpl; [|done].
  intros [= <-]. by exists g, e, op.
Qed.


Lemma Funnel_init_inv sc nbatch ndims kw w f w' :
  Funnel_init sc nbatch ndims kw w = (Ok f, w') →
  (1 ≤ ndims)%Z ∧ (0 ≤ nbatch)%Z ∧
  scale f = py_float sc ∧
  TensorflowDistribution_init ndims nbatch
    (Ok (Funnel_build_energy_op (py_float sc))) "Funnel" kw = Ok (f_base f).
Proof.
  unfold Funnel_init, Funnel_gen_init_X.
  destruct (Z.ltb_spec nbatch 0); simpl; [done|].
  destruct (PrimFloat.ltb (py_float sc) 0); simpl; [done|].
  destruct (Z.ltb_spec (ndims - 1) 0); simpl; [done|].
  destruct (TensorflowDistribution_init _ _ _ _ _) as [b|]; simpl; [|done].
  intros [= <- <-]. simpl. repeat split; auto; lia.
Qed.

Lemma TFGaussian_init_inv ndims nbatch sg kw w g w' :
  TFGaussian_init ndims nbatch sg kw w = (Ok g, w') →
  (0 ≤ ndims)%Z ∧ (0 ≤ nbatch)%Z ∧
  sigma g = sg ∧
  TensorflowDistribution_init ndims nbatch
    (Ok (TFGaussian_build_energy_op sg)) "TFGaussian" kw = Ok (g_base g).
Proof.
  unfold TFGaussian_init, TFGaussian_gen_init_X.
  destruct (Z.ltb_spec ndims 0); simpl; [done|].
  destruct (Z.ltb_spec nbatch 0); simpl; [done|].
  destruct (TensorflowDistribution_init _ _ _ _ _) as [b|]; simpl; [|done].
  intros [= <- <-]. simpl. repeat split; auto; lia.
Qed.



Lemma getitem_inv {A} (t t' : tensor A) ix :
  getitem t ix = Ok t' → wf t →
  getitem_shape ix (shape t) = Ok (shape t') ∧ wf t'.
Proof.
  unfold getitem. destruct (getitem_shape ix (shape t)) as [s|] eqn:Hs; [|done].
  cbn [mbind result_bind]. intros [= <-] Wt. split; [done|].
  by apply getitem_data_length.
Qed.

Lemma transpose_inv {A} (t t' : tensor A) :
  transpose t = Ok t' → wf t →
  ∃ r c, shape t = [r; c] ∧ shape t' = [c; r] ∧ wf t'.
Proof.
  intros Ht Wt. unfold transpose in Ht.
  destruct (shape t) as [|r [|c [|]]] eqn:Hs; try done.
  destruct (transpose_ok t r c Hs Wt) as (t2 & Ht2 & Hs2 & Hw2).
  unfold transpose in Ht2. rewrite Hs in Ht2. rewrite Ht2 in Ht.
  injection Ht as <-. by exists r, c.
Qed.

Lemma SparseImageCode_init_inv np n_batches cy n_basis kw w s :
  SparseImageCode_init np n_batches cy n_basis kw w = Ok s →
  world_wf w →
  ∃ patches3 tiled : tensor float,
    (0 ≤ np)%Z ∧ (0 ≤ n_batches)%Z ∧
    n_patches s = np ∧ cauchy s = cy ∧
    wf (patches s) ∧
    shape patches3 = [Z.to_nat np; 1; img_size s] ∧
    data patches3 = data (patches s) ∧ wf patches3 ∧
    shape tiled = [Z.to_nat np; Z.to_nat n_batches; img_size s;
                   n_coeffs s] ∧
    wf tiled ∧
    TensorflowDistribution_init (np * Z.of_nat (n_coeffs s)) n_batches
      (Ok (SparseImageCode_energy_op patches3 tiled (n_coeffs s) np
             (lmbda s) cy)) "SparseImageCode" kw = Ok (s_base s).
Proof.
  intros Hi Hw. unfold SparseImageCode_init in Hi.
  destruct (negb _); [done|].
  destruct (dumps w !! n_basis) as [[dat bas]|] eqn:Hd; [|done].
  apply Hw in Hd as [Wd Wb].
  cbn [of_option mbind result_bind nd_tensor] in Hi.
  destruct (shape bas) as [|I [|C [|]]] eqn:Hsb; try done.
  cbn [mbind result_bind] in Hi.
  destruct (getitem dat _) as [sel|] eqn:Hsel; [|done].
  cbn [mbind result_bind] in Hi.
  destruct (transpose sel) as [pat|] eqn:Hpat; [|done].
  cbn [mbind result_bind] in Hi.
  apply getitem_inv in Hsel as [_ Wsel]; [|done].
  apply transpose_inv in Hpat as (r & c & _ & _ & Wpat); [|done].
  destruct (TensorflowDistribution_init _ _ _ _ _) as [b|] eqn:Hb; [|done].
  cbn [mbind result_bind] in Hi. injection Hi as <-. cbn.
  unfold TensorflowDistribution_init in Hb |- *.
  destruct (resolve_device _) as [[g e]|]; [|done].
  cbn [mbind result_bind] in Hb |- *.
  unfold build_graph in Hb |- *.
  destruct (Z.ltb_spec (np * Z.of_nat C) 0); [done|].
  destruct (SparseImageCode_build_energy_op _ _ _ _ _ _ _ _) as [op|] eqn:Hop;
    [|done].
  apply SparseImageCode_build_inv in Hop
    as (p3 & tl & ? & ? & ? & ? & ? & ? & ? & ->); [|done|done].
  exists p3, tl. split_and!; done.
Qed.

Lemma sess_run_ok (self : TensorflowDistribution) op (X : tensor R) b :
  (0 ≤ ndims self)%Z → shape X = [Z.to_nat (ndims self); b] →
  sess_run self op X = op X.
Proof.
  intros Hn HX. unfold sess_run. rewrite HX.
  destruct (Z.eqb_spec (Z.of_nat (Z.to_nat (ndims self))) (ndims self)); [done|lia].
Qed.


Lemma resolve_uniform d : resolve_device (uniform_dict d) = resolve_device (DevStr d).
Proof. unfold uniform_dict, resolve_device. by simplify_map_eq. Qed.

Lemma init_uniform ndims nbatch build name d prof :
  TensorflowDistribution_init ndims nbatch build name (Kwargs (uniform_dict d) prof) =
  TensorflowDistribution_init ndims nbatch build name (Kwargs (DevStr d) prof).
Proof. unfold TensorflowDistribution_init. simpl kw_device. by rewrite resolve_uniform. Qed.

Lemma construct_uniform a d prof w :
  construct a (Kwargs (uniform_dict d) prof) w = construct a (Kwargs (DevStr d) prof) w.
Proof.
  destruct a; simpl.
  - unfold Funnel_init. by rewrite init_uniform.
  - unfold TFGaussian_init. by rewrite init_uniform.
  - unfold SparseImageCode_init. 
    destruct (negb _); [done|].
    destruct (of_option _ _) as [[dat bas]|]; simpl; [|done].
    destruct (shape bas) as [|? [|? [|]]]; simpl; try done.
Qed.

(** C9.  A model constructed with the device string [d] and the model
    constructed, from the same arguments in the same world, with the mapping
    [{'grad': d, 'energy': d}] are the same object, and so [E_val] and
    [dEdX_val] return the same results on every input. *)
Theorem device_string_or_uniform_dict a d prof w m1 m2 w1 w2 :
  construct a (Kwargs (DevStr d) prof) w = (Ok m1, w1) →
  construct a (Kwargs (DevDict (<["grad" := d]> {["energy" := d]})) prof) w
    = (Ok m2, w2) →
  m1 = m2 ∧
  ∀ X w', E_val (base m1) X w' = E_val (base m2) X w' ∧
          dEdX_val (base m1) X w' = dEdX_val (base m2) X w'.
Proof.
  intros H1 H2. fold (uniform_dict d) in H2. rewrite construct_uniform, H1 in H2.
  injection H2 as -> _. done.
Qed.

Lemma device_string_or_uniform_dict_witness :
  ∃ m1 m2 w1 w2,
    construct (FunnelArgs (PyFloat 1) 50 10) (Kwargs (DevStr "/gpu:0") false)
      quiet_world = (Ok m1, w1) ∧
    construct (FunnelArgs (PyFloat 1) 50 10)
      (Kwargs (DevDict (<["grad" := "/gpu:0"]> {["energy" := "/gpu:0"]})) false)
      quiet_world = (Ok m2, w2) ∧
    m1 = m2 ∧
    ∀ X w', E_val (base m1) X w' = E_val (base m2) X w' ∧
            dEdX_val (base m1) X w' = dEdX_val (base m2) X w'.
Proof.
  eexists _, _, _, _. split; [reflexivity|]. split; [reflexivity|].
  apply (device_string_or_uniform_dict (FunnelArgs (PyFloat 1) 50 10)
           "/gpu:0" false quiet_world _ _ _ _ eq_refl eq_refl).
Defined.



Lemma E_val_untraced self X w :
  prof_run self = false →
  E_val self X w = (sess_run self (energy_op self R _) X, w).
Proof. unfold E_val. by intros ->. Qed.

Lemma dEdX_val_untraced self X w :
  prof_run self = false →
  dEdX_val self X w = (sess_run self (grad_op self) X, w).
Proof. unfold dEdX_val. by intros ->. Qed.

Lemma E_val_traced self X w :
  prof_run self = true →
  E_val self X w =
  match sess_run self (energy_op self R _) X with
  | Ok v => if can_open w (log_path self "energy" w)
            then (Ok v, set_files (<[log_path self "energy" w := chrome_trace w]> (files w)) w)
            else (Raise IOError, w)
  | Raise e => (Raise e, w)
  end.
Proof.
  unfold E_val, write_file. intros ->. 
  destruct (sess_run _ _ _); [|done]. by destruct (can_open _ _).
Qed.

Lemma dEdX_val_traced self X w :
  prof_run self = true →
  dEdX_val self X w =
  match sess_run self (grad_op self) X with
  | Ok v => if can_open w (log_path self "grad" w)
            then (Ok v, set_files (<[log_path self "grad" w := chrome_trace w]> (files w)) w)
            else (Raise IOError, w)
  | Raise e => (Raise e, w)
  end.
Proof.
  unfold dEdX_val, write_file. intros ->. 
  destruct (sess_run _ _ _); [|done]. by destruct (can_open _ _).
Qed.

Lemma init_prof ndims nbatch build name dev b :
  TensorflowDistribution_init ndims nbatch build name (Kwargs dev b) =
  with_prof_run b <$> TensorflowDistribution_init ndims nbatch build name (Kwargs dev false).
Proof.
  unfold TensorflowDistribution_init. simpl.
  destruct (resolve_device dev) as [[g e]|]; simpl; [|done].
  destruct (build_graph _ _) as [[en gr]|]; simpl; done.
Qed.

Lemma construct_prof a dev b w m w1 :
  construct a (Kwargs dev b) w = (Ok m, w1) →
  ∃ m0, construct a (Kwargs dev false) w = (Ok m0, w1) ∧
        base m = with_prof_run b (base m0).
Proof.
  destruct a; simpl.
  - unfold Funnel_init. destruct (Funnel_gen_init_X _ _ _ _) as [[X|] w0]; [|done].
    rewrite init_prof. destruct (TensorflowDistribution_init _ _ _ _ _); simpl; [|done].
    intros [= <- <-]. eexists. split; [done|]. done.
  - unfold TFGaussian_init. destruct (TFGaussian_gen_init_X _ _ _) as [[X|] w0]; [|done].
    rewrite init_prof. destruct (TensorflowDistribution_init _ _ _ _ _); simpl; [|done].
    intros [= <- <-]. eexists. split; [done|]. done.
  - unfold SparseImageCode_init. destruct (negb _); [done|].
    destruct (of_option _ _) as [[dat bas]|]; simpl; [|done].
    destruct (shape bas) as [|? [|? [|]]]; simpl; try done.
    destruct (getitem _ _); simpl; [|done].
    destruct (transpose _); simpl; [|done].
    rewrite init_prof. destruct (TensorflowDistribution_init _ _ _ _ _); simpl; [|done].
    intros [= <- <-]. eexists. split; [done|]. done.
Qed.

(** C8.  For a model constructed with tracing on and the same model
    constructed with tracing off: whenever the traced [E_val] returns a
    value the untraced one returns that value; and when the untraced one
    returns a value and the trace file can be opened, the traced one returns
    the same value and changes the world only by writing that file.  The same
    holds for [dEdX_val]. *)
Theorem tracing_keeps_the_value a dev w m_on m_off w1 w2 :
  construct a (Kwargs dev true) w = (Ok m_on, w1) →
  construct a (Kwargs dev false) w = (Ok m_off, w2) →
  ∀ X w0,
    (∀ v w', E_val (base m_on) X w0 = (Ok v, w') →
             E_val (base m_off) X w0 = (Ok v, w0)) ∧
    (∀ v, E_val (base m_off) X w0 = (Ok v, w0) →
          can_open w0 (log_path (base m_on) "energy" w0) = true →
          E_val (base m_on) X w0 =
          (Ok v, set_files (<[log_path (base m_on) "energy" w0 := chrome_trace w0]>
                              (files w0)) w0)) ∧
    (∀ v w', dEdX_val (base m_on) X w0 = (Ok v, w') →
             dEdX_val (base m_off) X w0 = (Ok v, w0)) ∧
    (∀ v, dEdX_val (base m_off) X w0 = (Ok v, w0) →
          can_open w0 (log_path (base m_on) "grad" w0) = true →
          dEdX_val (base m_on) X w0 =
          (Ok v, set_files (<[log_path (base m_on) "grad" w0 := chrome_trace w0]>
                              (files w0)) w0)).
Proof.
  intros Hon Hoff X w0.
  apply construct_prof in Hon as (m0 & H0 & Hb).
  apply construct_prof in Hoff as (m0' & H0' & Hb').
  rewrite H0 in H0'. injection H0' as <- _.
  rewrite Hb, Hb'.
  rewrite (E_val_traced (with_prof_run true _)), (dEdX_val_traced (with_prof_run true _)) by done.
  rewrite (E_val_untraced (with_prof_run false _)), (dEdX_val_untraced (with_prof_run false _)) by done.
  unfold sess_run, log_path. simpl.
  split_and!.
  - intros v w'. repeat case_match; naive_solver.
  - intros v [= ->] ->. done.
  - intros v w'. repeat case_match; naive_solver.
  - intros v [= ->] ->. done.
Qed.

Lemma tracing_keeps_the_value_witness :
  ∃ m_on m_off w1 w2,
    construct (TFGaussianArgs 2 100 (PyFloat 1)) (Kwargs (DevStr "/cpu:0") true)
      quiet_world = (Ok m_on, w1) ∧
    construct (TFGaussianArgs 2 100 (PyFloat 1)) (Kwargs (DevStr "/cpu:0") false)
      quiet_world = (Ok m_off, w2) ∧
    ∀ v w', E_val (base m_on) (Tensor [2; 1] [1%R; 1%R]) quiet_world = (Ok v, w') →
            E_val (base m_off) (Tensor [2; 1] [1%R; 1%R]) quiet_world
            = (Ok v, quiet_world).
Proof.
  eexists _, _, _, _. split; [reflexivity|]. split; [reflexivity|].
  apply (tracing_keeps_the_value (TFGaussianArgs 2 100 (PyFloat 1))
           (DevStr "/cpu:0") quiet_world _ _ _ _ eq_refl eq_refl).
Defined.

(** C10.  [__hash__] of a [SparseImageCode] leaves [imgs] and [basis]
    read-only: every later write into them is refused, a second call returns
    the same hash and changes nothing more, and the object differs from the
    one before the call whenever one of the arrays was writable. *)
Theorem hash_freezes_the_arrays (s : SparseImageCode) :
  let '(r, s') := SparseImageCode_hash s in
  writeable (imgs s') = false ∧ writeable (basis s') = false ∧
  (∀ i v, setitem (imgs s') i v = Raise ValueError) ∧
  (∀ i v, setitem (basis s') i v = Raise ValueError) ∧
  (∃ h, r = Ok h) ∧
  SparseImageCode_hash s' = (r, s') ∧
  (writeable (imgs s) = true ∨ writeable (basis s) = true → s' ≠ s).
Proof.
  unfold SparseImageCode_hash. simpl. split_and!; try done.
  - by eexists.
  - intros [Hw|Hw] Heq; rewrite <- Heq in Hw; done.
Qed.

(** C6.  Two [SparseImageCode] objects with the same bytes in [imgs] and
    in [basis] and the same [lmbda], [n_patches] and [n_coeffs] have the same
    hash, whatever their [cauchy] flags (and all their other fields). *)
Theorem sparse_hash_ignores_cauchy (s1 s2 : SparseImageCode) :
  buffer_bytes (imgs s1) = buffer_bytes (imgs s2) →
  buffer_bytes (basis s1) = buffer_bytes (basis s2) →
  lmbda s1 = lmbda s2 →
  n_patches s1 = n_patches s2 →
  n_coeffs s1 = n_coeffs s2 →
  ∃ h, (SparseImageCode_hash s1).1 = Ok h ∧ (SparseImageCode_hash s2).1 = Ok h.
Proof.
  intros Hi Hb Hl Hp Hc. unfold SparseImageCode_hash, hash_buffer. simpl.
  unfold buffer_bytes in *. simpl. rewrite Hi, Hb, Hl, Hp, Hc. by eexists.
Qed.

Lemma sparse_hash_ignores_cauchy_witness :
  ∃ s1 s2,
    SparseImageCode_init 1 2 true 512 cpu quiet_world = Ok s1 ∧
    SparseImageCode_init 1 2 false 512 cpu quiet_world = Ok s2 ∧
    cauchy s1 = true ∧ cauchy s2 = false ∧
    ∃ h, (SparseImageCode_hash s1).1 = Ok h ∧ (SparseImageCode_hash s2).1 = Ok h.
Proof.
  eexists _, _. do 4 (split; [reflexivity|]).
  apply sparse_hash_ignores_cauchy; reflexivity.
Defined.

Lemma TFGaussian_hash_init ndims nbatch sigma kw w g w' :
  TFGaussian_init ndims nbatch sigma kw w = (Ok g, w') →
  TFGaussian_hash g = PyHash.hash_tuple [PyHash.hash_int ndims; hash_num sigma].
Proof.
  intros (_ & _ & Hs & Hb)%TFGaussian_init_inv.
  apply TensorflowDistribution_init_inv in Hb as (? & ? & ? & _ & _ & _ & Hb).
  unfold TFGaussian_hash. by rewrite Hs, Hb.
Qed.

(** C5, amended.  The hash of a [Funnel] is a function of [(scale, ndims)]
    only and the hash of a [TFGaussian] a function of [(ndims, sigma)] only,
    so objects with the same defining parameters hash alike; Gaussians with
    [sigma = 1.0] and [sigma = 2.0], and Gaussians with [ndims = 2] and
    [ndims = 3], hash differently. *)
Theorem hash_is_a_function_of_the_parameters :
  (∀ f1 f2 : Funnel,
     scale f1 = scale f2 → ndims (f_base f1) = ndims (f_base f2) →
     Funnel_hash f1 = Funnel_hash f2) ∧
  (∀ g1 g2 : TFGaussian,
     ndims (g_base g1) = ndims (g_base g2) → sigma g1 = sigma g2 →
     TFGaussian_hash g1 = TFGaussian_hash g2) ∧
  (∀ nb1 nb2 kw1 kw2 w1 w2 g1 g2 w1' w2',
     TFGaussian_init 2 nb1 (PyFloat 1) kw1 w1 = (Ok g1, w1') →
     TFGaussian_init 2 nb2 (PyFloat 2) kw2 w2 = (Ok g2, w2') →
     TFGaussian_hash g1 ≠ TFGaussian_hash g2) ∧
  (∀ nb1 nb2 kw1 kw2 w1 w2 g1 g2 w1' w2',
     TFGaussian_init 2 nb1 (PyFloat 1) kw1 w1 = (Ok g1, w1') →
     TFGaussian_init 3 nb2 (PyFloat 1) kw2 w2 = (Ok g2, w2') →
     TFGaussian_hash g1 ≠ TFGaussian_hash g2).
Proof.
  split_and!.
  - intros f1 f2 Hs Hn. unfold Funnel_hash. by rewrite Hs, Hn.
  - intros g1 g2 Hn Hs. unfold TFGaussian_hash. by rewrite Hs, Hn.
  - intros * H1 H2. rewrite (TFGaussian_hash_init _ _ _ _ _ _ _ H1),
      (TFGaussian_hash_init _ _ _ _ _ _ _ H2). by vm_compute.
  - intros * H1 H2. rewrite (TFGaussian_hash_init _ _ _ _ _ _ _ H1),
      (TFGaussian_hash_init _ _ _ _ _ _ _ H2). by vm_compute.
Qed.

Lemma hash_is_a_function_of_the_parameters_witness :
  ∃ g1 g2 w1 w2,
    TFGaussian_init 2 100 (PyFloat 1) cpu quiet_world = (Ok g1, w1) ∧
    TFGaussian_init 2 50 (PyFloat 1) (Kwargs (DevStr "/gpu:0") true) w1
      = (Ok g2, w2) ∧
    TFGaussian_hash g1 = TFGaussian_hash g2.
Proof.
  eexists _, _, _, _. do 2 (split; [reflexivity|]).
  apply (proj1 (proj2 hash_is_a_function_of_the_parameters)); reflexivity.
Defined.

(** Two Gaussians that differ in [sigma] (and in the energy they define)
    with the same hash: [hash(-1.0)] and [hash(-2.0)] are both [-2]. *)
Lemma gaussian_hash_collision :
  ∃ g1 g2 w1 w2,
    TFGaussian_init 2 100 (PyFloat (-1)) cpu quiet_world = (Ok g1, w1) ∧
    TFGaussian_init 2 100 (PyFloat (-2)) cpu quiet_world = (Ok g2, w2) ∧
    sigma g1 ≠ sigma g2 ∧
    (num_R (sigma g1) ^ 2 ≠ num_R (sigma g2) ^ 2)%R ∧
    TFGaussian_hash g1 = TFGaussian_hash g2.
Proof.
  eexists _, _, _, _. do 2 (split; [reflexivity|]). split_and!.
  - simpl. intros [= H].
  - simpl. cbv - [IZR Rplus Rmult Rinv Ropp Rminus Rdiv not]. lra.
  - unfold TFGaussian_hash. simpl. by vm_compute.
Qed.

Lemma E_val_returns self X w v :
  sess_run self (energy_op self R _) X = Ok v →
  trace_writable self "energy" w →
  ∃ w', E_val self X w = (Ok v, w').
Proof.
  intros Hv Hw. destruct (prof_run self) eqn:Hp.
  - rewrite E_val_traced, Hv, Hw by done. by eexists.
  - rewrite E_val_untraced, Hv by done. by eexists.
Qed.



Lemma quiet_world_wf : world_wf quiet_world.
Proof.
  intros n d b. unfold quiet_world. simpl.
  intros [_ [= <- <-]]%lookup_singleton_Some. done.
Qed.






(** C1.  The Funnel with [scale = 1.0] and [ndims = 3] returns [-2] on the
    column [(1, 0, 0)], where [-(x0^2/scale^2) - sum_k (x_k^2 / exp(x0))] is
    [-1]: the first term is added to every one of the [ndims - 1] rows before
    they are summed. *)
Theorem funnel_energy_repeats_first_term :
  ∃ f w,
    Funnel_init (PyFloat 1) 50 3 cpu quiet_world = (Ok f, w) ∧
    let X := Tensor [3; 1] [1; 0; 0]%R in
    E_val (f_base f) X w = (Ok (Tensor [1] [(-2)%R]), w) ∧
    spec_funnel_energy (F2R (scale f)) (column X 0) = (-1)%R.
Proof.
  eexists _, _. split; [reflexivity|]. split.
  - eval_graph. do 4 f_equal. lra.
  - eval_graph. lra.
Qed.




Lemma constructed_Funnel_inv f :
  constructed (MFunnel f) →
  ∃ sc nbatch nd kw w w', Funnel_init sc nbatch nd kw w = (Ok f, w').
Proof.
  intros (a & kw & w & w' & _ & Hc). destruct a; simpl in Hc.
  - destruct (Funnel_init _ _ _ _ _) as [[f'|] w0] eqn:Hf; [|done].
    injection Hc as <- <-. by eexists _, _, _, _, _, _.
  - destruct (TFGaussian_init _ _ _ _ _) as [[?|] ?]; done.
  - destruct (SparseImageCode_init _ _ _ _ _ _); done.
Qed.

Lemma Funnel_graph sc nbatch nd kw w f w' :
  Funnel_init sc nbatch nd kw w = (Ok f, w') →
  (1 ≤ ndims (f_base f))%Z ∧ scale f = py_float sc ∧
  ndims (f_base f) = nd ∧ prof_run (f_base f) = kw_prof_run kw ∧
  energy_op (f_base f) = Funnel_build_energy_op (py_float sc).
Proof.
  intros (H1 & _ & Hs & Hb)%Funnel_init_inv.
  apply TensorflowDistribution_init_inv in Hb as (? & ? & ? & _ & _ & [= <-] & ->).
  done.
Qed.

(** What [E_val] of a Funnel returns for a column: the sum, over the rows of
    the broadcast array, of the two terms of that row. *)
Lemma Funnel_E_val_rows (f : Funnel) (X : tensor R) (b : nat) (w : world) :
  constructed (MFunnel f) → wf X →
  shape X = [Z.to_nat (ndims (f_base f)); b] →
  trace_writable (f_base f) "energy" w →
  ∃ E w', E_val (f_base f) X w = (Ok E, w') ∧ shape E = [b] ∧ wf E ∧
    ∀ j, j < b →
      nth j (data E) 0%R
      = Rsum ((λ i, - (entry X 0 j ^ 2 / F2R (scale f) ^ 2)
                    + - (entry X (S i) j ^ 2 / exp (entry X 0 j)))%R
                <$> seq 0 (Z.to_nat (ndims (f_base f)) - 1)).
Proof.
  intros Hc WX HX Hw.
  apply constructed_Funnel_inv in Hc as (sc & nb & nd & kw & w0 & w1 & Hf).
  apply Funnel_graph in Hf as (Hn & Hs & _ & _ & Hop).
  set (n := Z.to_nat (ndims (f_base f))) in *.
  destruct (Funnel_energy_value (py_float sc) X n b) as (E & HE & HsE & WE & Hv);
    [lia|done|done|].
  destruct (E_val_returns (f_base f) X w E) as [w' Hr]; [|done|].
  { rewrite (sess_run_ok _ _ _ b) by (done || lia). by rewrite Hop. }
  exists E, w'. rewrite Hs. by split_and!.
Qed.





(** C4.  With the Laplace penalty, one patch [(2)], the basis [(0 1)] and
    the batch [[[0, 1], [0, 0]]], whose first column is all zero, the energy
    returned for the first column is [1/2], where one half of the mean of the
    squared patches is [2]: the reshape regroups the row-major buffer, so the
    reconstruction of one column uses coefficients of the other. *)
Theorem sparse_energy_mixes_batch_columns :
  ∃ s E,
    SparseImageCode_init 1 2 false 512 cpu quiet_world = Ok s ∧
    let X := Tensor [2; 2] [0; 1; 0; 0]%R in
    column X 0 = [0; 0]%R ∧
    E_val (s_base s) X quiet_world = (Ok E, quiet_world) ∧
    nth 0 (data E) 0%R = (1 / 2)%R ∧
    spec_zero_code_energy (patches s) = 2%R.
Proof.
  eexists _, _. split; [reflexivity|]. split_and!.
  - reflexivity.
  - reflexivity.
  - eval_graph. rewrite Rabs_R0. lra.
  - eval_graph. lra.
Qed.

(** ** Feeds that do not fit, traces that cannot be written *)

Lemma sess_run_misfit (self : TensorflowDistribution) op (X : tensor R) :
  (∀ n b, shape X = [n; b] → Z.of_nat n ≠ ndims self) →
  sess_run self op X = Raise ValueError.
Proof.
  intros H. unfold sess_run. destruct (shape X) as [|n [|b [|]]] eqn:HX; try done.
  destruct (Z.eqb_spec (Z.of_nat n) (ndims self)) as [Hn|]; [|done].
  by destruct (H n b).
Qed.

Lemma log_path_kinds (self : TensorflowDistribution) (w : world) :
  log_path self "energy" w ≠ log_path self "grad" w.
Proof.
  unfold log_path. intros H.
  apply (inj (String.app (home w))) in H.
  apply (inj (String.app "/tmp/logs/tf_")) in H.
  apply (inj (String.app (name self))) in H.
  discriminate H.
Qed.

(** X3.  An input whose shape does not fit the placeholder [[ndims, None]]
    is refused with [ValueError] by [E_val] and by [dEdX_val]; nothing is
    written, with tracing on or off. *)
Theorem misfit_input_is_refused (self : TensorflowDistribution) (X : tensor R)
    (w : world) :
  (∀ n b, shape X = [n; b] → Z.of_nat n ≠ ndims self) →
  E_val self X w = (Raise ValueError, w) ∧
  dEdX_val self X w = (Raise ValueError, w).
Proof.
  intros H. unfold E_val, dEdX_val. rewrite !sess_run_misfit by done.
  by destruct (prof_run self).
Qed.

Lemma misfit_input_is_refused_witness :
  ∃ g w0,
    TFGaussian_init 2 100 (PyFloat 1) (Kwargs (DevStr "/cpu:0") true) quiet_world
    = (Ok g, w0) ∧
    E_val (g_base g) (Tensor [3; 1] [1; 1; 1]%R) w0 = (Raise ValueError, w0) ∧
    dEdX_val (g_base g) (Tensor [3; 1] [1; 1; 1]%R) w0 = (Raise ValueError, w0).
Proof.
  eexists _, _. split; [reflexivity|].
  apply misfit_input_is_refused. simpl. intros n b [= <- _]. lia.
Defined.



(** X5.  The trace of an energy evaluation and the trace of a gradient
    evaluation go to different files, also at the same timestamp: after a
    traced [E_val] followed by a traced [dEdX_val] both files exist and hold
    the timeline. *)
Theorem energy_and_gradient_traces_coexist (self : TensorflowDistribution)
    (X : tensor R) (w w1 w2 : world) (E G : tensor R) :
  prof_run self = true →
  E_val self X w = (Ok E, w1) →
  dEdX_val self X w1 = (Ok G, w2) →
  log_path self "energy" w ≠ log_path self "grad" w ∧
  files w2 = <[log_path self "grad" w := chrome_trace w]>
               (<[log_path self "energy" w := chrome_trace w]> (files w)) ∧
  files w2 !! log_path self "energy" w = Some (chrome_trace w) ∧
  files w2 !! log_path self "grad" w = Some (chrome_trace w).
Proof.
  intros Hp HE HG. pose proof (log_path_kinds self w) as Hne.
  rewrite E_val_traced in HE by done. rewrite dEdX_val_traced in HG by done.
  destruct (sess_run self (energy_op self R _) X); [|done].
  destruct (can_open w _); [|done]. injection HE as _ <-.
  destruct (sess_run self (grad_op self) X); [|done].
  destruct (can_open _ _); [|done]. injection HG as _ <-.
  split; [done|]. split; [done|]. simpl. unfold log_path. simpl.
  fold (log_path self "energy" w). fold (log_path self "grad" w).
  split.
  - rewrite lookup_insert_ne by done. by rewrite lookup_insert_eq.
  - by rewrite lookup_insert_eq.
Qed.

Lemma energy_and_gradient_traces_coexist_witness :
  ∃ g w0 E w1 G w2,
    TFGaussian_init 2 100 (PyFloat 1) (Kwargs (DevStr "/cpu:0") true) quiet_world
    = (Ok g, w0) ∧
    E_val (g_base g) (Tensor [2; 1] [1; 1]%R) w0 = (Ok E, w1) ∧
    dEdX_val (g_base g) (Tensor [2; 1] [1; 1]%R) w1 = (Ok G, w2) ∧
    files w2 !! log_path (g_base g) "energy" w0 = Some (chrome_trace w0) ∧
    files w2 !! log_path (g_base g) "grad" w0 = Some (chrome_trace w0).
Proof.
  eexists _, _, _, _, _, _. split; [reflexivity|].
  split; [reflexivity|]. split; [reflexivity|].
  eapply (energy_and_gradient_traces_coexist _ (Tensor [2; 1] [1; 1]%R)).
  - reflexivity.
  - reflexivity.
  - reflexivity.
Defined.

(** ** What construction fixes *)

Lemma constructed_name (m : model) :
  constructed m → name (base m) = class_name m.
Proof.
  intros (a & kw & w & w' & Ww & Hc).
  destruct a as [sc nb nd|nd nb sg|np nbs cy nbasis]; simpl in Hc.
  - destruct (Funnel_init _ _ _ _ _) as [[f|] w0] eqn:Hf; [|done].
    injection Hc as <- <-.
    apply Funnel_init_inv in Hf as (_ & _ & _ & Hb).
    apply TensorflowDistribution_init_inv in Hb as (? & ? & ? & _ & _ & _ & Hb).
    simpl. by rewrite Hb.
  - destruct (TFGaussian_init _ _ _ _ _) as [[g|] w0] eqn:Hg; [|done].
    injection Hc as <- <-.
    apply TFGaussian_init_inv in Hg as (_ & _ & _ & Hb).
    apply TensorflowDistribution_init_inv in Hb as (? & ? & ? & _ & _ & _ & Hb).
    simpl. by rewrite Hb.
  - destruct (SparseImageCode_init _ _ _ _ _ _) as [s|] eqn:Hs; [|done].
    injection Hc as <- <-.
    apply SparseImageCode_init_inv in Hs
      as (? & ? & _ & _ & _ & _ & _ & _ & _ & _ & _ & _ & Hb); [|done].
    apply TensorflowDistribution_init_inv in Hb as (? & ? & ? & _ & _ & _ & Hb).
    simpl. by rewrite Hb.
Qed.

(** X6.  The trace file is named after the class, not the object: two
    constructed models of one class that are evaluated with tracing on at the
    same timestamp write to the same path, so the two calls leave one file. *)
Theorem models_of_one_class_share_a_trace_file (m1 m2 : model)
    (X1 X2 E1 E2 : tensor R) (w w1 w2 : world) :
  constructed m1 → constructed m2 → class_name m1 = class_name m2 →
  prof_run (base m1) = true → prof_run (base m2) = true →
  E_val (base m1) X1 w = (Ok E1, w1) →
  E_val (base m2) X2 w1 = (Ok E2, w2) →
  log_path (base m2) "energy" w1 = log_path (base m1) "energy" w ∧
  files w2 = <[log_path (base m1) "energy" w := chrome_trace w]> (files w).
Proof.
  intros H1 H2 Hcl Hp1 Hp2 HE1 HE2.
  apply constructed_name in H1, H2.
  rewrite E_val_traced in HE1 by done. rewrite E_val_traced in HE2 by done.
  destruct (sess_run (base m1) _ X1); [|done].
  destruct (can_open w _); [|done]. injection HE1 as _ <-.
  destruct (sess_run (base m2) _ X2); [|done].
  destruct (can_open _ _); [|done]. injection HE2 as _ <-.
  unfold log_path. rewrite H1, H2, Hcl. simpl. split; [done|].
  by rewrite insert_insert_eq.
Qed.

Lemma models_of_one_class_share_a_trace_file_witness :
  ∃ m1 m2 w0 w0' E1 w1 E2 w2,
    construct (TFGaussianArgs 2 100 (PyFloat 1)) (Kwargs (DevStr "/cpu:0") true)
      quiet_world = (Ok m1, w0) ∧
    construct (TFGaussianArgs 1 5 (PyInt 3)) (Kwargs (DevStr "/gpu:0") true)
      quiet_world = (Ok m2, w0') ∧
    E_val (base m1) (Tensor [2; 1] [1; 1]%R) quiet_world = (Ok E1, w1) ∧
    E_val (base m2) (Tensor [1; 1] [1]%R) w1 = (Ok E2, w2) ∧
    log_path (base m2) "energy" w1 = log_path (base m1) "energy" quiet_world ∧
    files w2 = <[log_path (base m1) "energy" quiet_world
                 := chrome_trace quiet_world]> (files quiet_world).
Proof.
  eexists _, _, _, _, _, _, _, _. split; [reflexivity|].
  split; [reflexivity|]. split; [reflexivity|]. split; [reflexivity|].
  eapply (models_of_one_class_share_a_trace_file
            _ _ (Tensor [2; 1] [1; 1]%R) (Tensor [1; 1] [1]%R)).
  - exists (TFGaussianArgs 2 100 (PyFloat 1)),
      (Kwargs (DevStr "/cpu:0") true), quiet_world. eexists.
    split; [apply quiet_world_wf|reflexivity].
  - exists (TFGaussianArgs 1 5 (PyInt 3)),
      (Kwargs (DevStr "/gpu:0") true), quiet_world. eexists.
    split; [apply quiet_world_wf|reflexivity].
  - reflexivity.
  - reflexivity.
  - reflexivity.
  - reflexivity.
  - reflexivity.
Defined.

(** X7.  [SparseImageCode.__init__] checks its arguments in this order: a
    basis size other than 1024 and 512 fails the [assert] before anything is
    read; then a missing dump fails on [open]; then a basis that is not
    two-dimensional fails the unpacking of its shape.  The device is looked
    at only after all three. *)
Theorem sparse_construction_checks n_patches n_batches cauchy n_basis kw w :
  (n_basis ≠ 1024%Z → n_basis ≠ 512%Z →
   SparseImageCode_init n_patches n_batches cauchy n_basis kw w
   = Raise AssertionError) ∧
  (n_basis = 1024%Z ∨ n_basis = 512%Z → dumps w !! n_basis = None →
   SparseImageCode_init n_patches n_batches cauchy n_basis kw w
   = Raise IOError) ∧
  (∀ d b, n_basis = 1024%Z ∨ n_basis = 512%Z →
     dumps w !! n_basis = Some (d, b) → length (shape b) ≠ 2 →
     SparseImageCode_init n_patches n_batches cauchy n_basis kw w
     = Raise ValueError).
Proof.
  unfold SparseImageCode_init. split_and!.
  - intros H1 H2.
    destruct (Z.eqb_spec n_basis 1024); [done|].
    destruct (Z.eqb_spec n_basis 512); [done|]. done.
  - intros Hn Hd.
    assert ((n_basis =? 1024)%Z || (n_basis =? 512)%Z = true) as ->
      by (destruct Hn as [-> | ->]; done).
    by rewrite Hd.
  - intros d b Hn Hd Hb.
    assert ((n_basis =? 1024)%Z || (n_basis =? 512)%Z = true) as ->
      by (destruct Hn as [-> | ->]; done).
    rewrite Hd. simpl. by destruct (shape b) as [|? [|? [|]]].
Qed.




(** ** The hash of a sparse code *)




(** ** Signs of the energies *)










(** X13.  A [Funnel] with [ndims = 1] is flat: the slice [state_pl[1:, :]] is
    empty, the sum of the two terms broadcasts to an empty array, and the
    energy returned is zero for every input. *)
Theorem one_dimensional_funnel_is_flat (f : Funnel) (X : tensor R) (b : nat)
    (w : world) :
  constructed (MFunnel f) → ndims (f_base f) = 1%Z → wf X →
  shape X = [1; b] →
  trace_writable (f_base f) "energy" w →
  ∃ w', E_val (f_base f) X w = (Ok (Tensor [b] (replicate b 0%R)), w').
Proof.
  intros Hc Hn WX HX Hw.
  destruct (Funnel_E_val_rows f X b w) as (E & w' & HE & Hs & WE & Hv);
    [done|done|by rewrite Hn|done|].
  exists w'. rewrite HE. do 2 f_equal.
  destruct E as [s d]. simpl in *. subst s. f_equal.
  unfold wf in WE. simpl in WE. rewrite Nat.mul_1_r in WE.
  apply (nth_ext _ _ 0%R 0%R); [by rewrite length_replicate|].
  intros j Hj. rewrite Hv by lia. rewrite Hn.
  rewrite (nth_lookup (replicate b 0%R)), lookup_replicate_2 by lia.
  done.
Qed.

Lemma one_dimensional_funnel_is_flat_witness :
  ∃ f w0,
    Funnel_init (PyFloat 1) 50 1 cpu quiet_world = (Ok f, w0) ∧
    ∃ w', E_val (f_base f) (Tensor [1; 2] [3; 4]%R) w0
          = (Ok (Tensor [2] (replicate 2 0%R)), w').
Proof.
  eexists _, _. split; [reflexivity|].
  apply one_dimensional_funnel_is_flat.
  - exists (FunnelArgs (PyFloat 1) 50 1), cpu, quiet_world. eexists.
    split; [apply quiet_world_wf|reflexivity].
  - reflexivity.
  - reflexivity.
  - reflexivity.
  - done.
Defined.

(** ** The initial sample *)

Lemma nth_draw (w : world) n i :
  i < n → nth i (draw n w).1 0%R = normals w i.
Proof.
  intros Hi. unfold draw. cbn [fst].
  rewrite nth_lookup, list_lookup_fmap, lookup_seq_lt by done. done.
Qed.














(** ** More columns than [nbatch] *)









(** ** The sparsity penalty *)








(** ** The gradient of the Gaussian energy *)















(** ** A sparse code at the origin *)

Section preserved.
Context {A : Type} (P : A → Prop).



End preserved.










Lemma Rsum_scale_l (c : R) (l : list R) :
  Rsum ((λ t, c * t)%R <$> l) = (c * Rsum l)%R.
Proof.
  induction l as [|x l IH].
  - unfold Rsum. simpl. lra.
  - rewrite fmap_cons. unfold Rsum in *. cbn [foldr]. rewrite IH. lra.
Qed.










(** ** The gradient of the Funnel energy *)











